(** * Poem Booth certificate generator: model and verification

    A shallow embedding of [src/certificate-generator.ts], of
    [src/device-registrar.ts] and of [main] of [src/index.ts].

    The TypeScript code is a sequence of calls into Node's [fs], [crypto]
    and [path] modules and into the [openssl] command line tool.  The file
    system is an explicit state ([World]); the asynchronous methods become
    computations in a state-and-exception monad ([M]); what [openssl], the
    random generator, SHA-256 and the date parser compute is taken from an
    environment record ([Env]), so every statement holds for whatever these
    tools compute.

    Conventions of the model:
    - strings are byte strings; white space is the ASCII white space;
    - [path.join] is the POSIX one (lexical normalisation);
    - a command handed to [exec] is run as its argument vector reads, every
      interpolated path or passphrase being taken as one shell word
      ([command_line] gives the text the source builds);
    - a command either fails without writing or succeeds and writes its
      output files;
    - a file is created in an existing directory and is then readable and
      writable; an existing file keeps its permissions when overwritten and
      must be writable; [fs.unlink] fails only on a missing file. *)

From Stdlib Require Import ZArith Ascii Lia DecimalString.
From Stdlib Require String.
From stdpp Require Import base gmap strings list.

Local Open Scope Z_scope.
Local Open Scope stdpp_scope.

(** ** Text: the string operations of the JavaScript runtime *)

Module Text.

Definition LF : ascii := "010"%char.
Definition slash : ascii := "/"%char.
Definition dquote : ascii := "034"%char.

(** [WhiteSpace] and [LineTerminator] of ECMAScript, ASCII part. *)
Definition is_ws (c : ascii) : bool := Ascii.is_space c.

Definition is_empty (s : string) : bool :=
  match s with EmptyString => true | String _ _ => false end.

Fixpoint trim_start (s : string) : string :=
  match s with
  | EmptyString => EmptyString
  | String c s' => if is_ws c then trim_start s' else s
  end.

Fixpoint trim_end (s : string) : string :=
  match s with
  | EmptyString => EmptyString
  | String c s' =>
      let r := trim_end s' in
      if is_empty r && is_ws c then EmptyString else String c r
  end.

(** [String.prototype.trim]. *)
Definition trim (s : string) : string := trim_end (trim_start s).

Fixpoint all_chars (p : ascii -> bool) (s : string) : bool :=
  match s with
  | EmptyString => true
  | String c s' => p c && all_chars p s'
  end.

Definition is_char (a c : ascii) : bool := Ascii.eqb a c.

Fixpoint last_char (s : string) : option ascii :=
  match s with
  | EmptyString => None
  | String c s' =>
      match s' with EmptyString => Some c | String _ _ => last_char s' end
  end.

(** Segments of [s] between occurrences of [sep]; never empty. *)
Fixpoint split_on (sep : ascii) (s : string) : list string :=
  match s with
  | EmptyString => [EmptyString]
  | String c s' =>
      if is_char sep c then EmptyString :: split_on sep s'
      else match split_on sep s' with
           | [] => [String c EmptyString]
           | seg :: rest => String c seg :: rest
           end
  end.

Fixpoint join_with (sep : string) (l : list string) : string :=
  match l with
  | [] => EmptyString
  | [x] => x
  | x :: rest => x +:+ sep +:+ join_with sep rest
  end.

Fixpoint starts_with (p s : string) : bool :=
  match p, s with
  | EmptyString, _ => true
  | String a p', String b s' => is_char a b && starts_with p' s'
  | String _ _, EmptyString => false
  end.

(** Lower-case hexadecimal, as [Buffer.toString('hex')]. *)
Definition hex_digit (n : N) : ascii :=
  match n with
  | 0 => "0" | 1 => "1" | 2 => "2" | 3 => "3" | 4 => "4" | 5 => "5"
  | 6 => "6" | 7 => "7" | 8 => "8" | 9 => "9" | 10 => "a" | 11 => "b"
  | 12 => "c" | 13 => "d" | 14 => "e" | _ => "f"
  end%N%char.

Definition hex_of_N (n : N) : string :=
  String (hex_digit (n / 16 mod 16)) (String (hex_digit (n mod 16)) EmptyString).

Fixpoint hex_of_Ns (l : list N) : string :=
  match l with
  | [] => EmptyString
  | n :: l' => hex_of_N n +:+ hex_of_Ns l'
  end.

Definition hex_of_bytes (l : list Byte.byte) : string :=
  hex_of_Ns (Byte.to_N <$> l).

(** How a template literal renders an integer-valued number. *)
Definition string_of_Z (z : Z) : string :=
  NilZero.string_of_int (Z.to_int z).

(** A version-4 UUID from 16 random bytes: version and variant bits are
    forced, the rest is printed as 8-4-4-4-12 hexadecimal digits. *)
Definition uuid_v4 (l : list N) : string :=
  let l := alter (fun b => N.lor (N.land b 15) 64) 6%nat l in
  let l := alter (fun b => N.lor (N.land b 63) 128) 8%nat l in
  hex_of_Ns (take 4 l) +:+ "-" +:+ hex_of_Ns (take 2 (drop 4 l)) +:+ "-" +:+
  hex_of_Ns (take 2 (drop 6 l)) +:+ "-" +:+ hex_of_Ns (take 2 (drop 8 l)) +:+
  "-" +:+ hex_of_Ns (take 6 (drop 10 l)).

End Text.

(** ** Path: POSIX [path.join] *)

Module Path.
Import Text.

Definition is_dot (s : string) : bool := String.eqb s ".".
Definition is_dotdot (s : string) : bool := String.eqb s "..".

(** [normalizeString]: the segments are visited left to right; [acc] is
    the result so far, last segment first.  Empty and [.] segments are
    dropped; [..] removes the previous segment, and is kept only when the
    path is relative and nothing is left to remove. *)
Fixpoint norm_segs (allowAboveRoot : bool) (acc segs : list string)
  : list string :=
  match segs with
  | [] => rev acc
  | seg :: rest =>
      if is_empty seg || is_dot seg then norm_segs allowAboveRoot acc rest
      else if is_dotdot seg then
        match acc with
        | top :: acc' =>
            if is_dotdot top
            then norm_segs allowAboveRoot
                   (if allowAboveRoot then seg :: acc else acc) rest
            else norm_segs allowAboveRoot acc' rest
        | [] =>
            norm_segs allowAboveRoot
              (if allowAboveRoot then [seg] else []) rest
        end
      else norm_segs allowAboveRoot (seg :: acc) rest
  end.

Definition is_absolute (p : string) : bool := starts_with "/" p.
Definition has_trailing_slash (p : string) : bool :=
  bool_decide (last_char p = Some slash).

(** [path.posix.normalize]. *)
Definition normalize (p : string) : string :=
  if is_empty p then "."
  else
    let body := join_with "/" (norm_segs (negb (is_absolute p)) []
                                 (split_on slash p)) in
    if is_empty body then
      if is_absolute p then "/"
      else if has_trailing_slash p then "./" else "."
    else
      (if is_absolute p then "/" else EmptyString) +:+ body +:+
      (if has_trailing_slash p then "/" else EmptyString).

(** [path.posix.join] of two arguments: empty arguments are skipped. *)
Definition join (a b : string) : string :=
  if is_empty a then (if is_empty b then "." else normalize b)
  else if is_empty b then normalize a
  else normalize (a +:+ "/" +:+ b).

(** The directory that must exist for [p] to be created: [p] without its
    last segment. *)
Definition parent (p : string) : string :=
  let body := join_with "/" (removelast (split_on slash p)) in
  if is_empty body then (if is_absolute p then "/" else ".") else body.

(** The end of a file name: no slash in it, and its last character is
    not a dot. *)
Definition good_suffix (suf : string) : bool :=
  all_chars (fun c => negb (is_char slash c)) suf &&
  match last_char suf with
  | Some c => negb (is_char "."%char c)
  | None => false
  end.

End Path.

(** ** The world: files, directories, randomness and a log of effects *)

(** The [openssl] invocations of the source, by their arguments. *)
Inductive OpensslCmd : Type :=
  | OsslVersion
  | GenrsaAes256 (out pass : string) (bits : Z)
  | ReqNewX509 (days : Z) (key out pass subj : string)
  | Genrsa (out : string) (bits : Z)
  | ReqNew (key out config : string)
  | X509Req (csr ca cakey out : string) (days : Z)
            (extensions extfile pass : string)
  | X509Dates (cert : string).

Record File : Type := mkFile {
  content : string;
  readable : bool;
  writable : bool
}.

Inductive Event : Type :=
  | EvMkdir (p : string)
  | EvWrite (p data : string)
  | EvUnlink (p : string)
  | EvExec (c : OpensslCmd).

Record World : Type := mkWorld {
  files : gmap string File;
  dirs : gset string;
  rng : nat;            (* how much of the random stream is used up *)
  log : list Event      (* effects so far, latest first *)
}.

Inductive Error : Type :=
  | FsError (code path : string)
  | ExecError (c : OpensslCmd)
  | JsError (msg : string).

Inductive Result (A : Type) : Type :=
  | Ok (a : A) (w : World)
  | Err (e : Error) (w : World).
Arguments Ok {A} a w.
Arguments Err {A} e w.

Definition M (A : Type) : Type := World -> Result A.

Definition ret {A} (a : A) : M A := fun w => Ok a w.
Definition throw {A} (e : Error) : M A := fun w => Err e w.
Definition bind {A B} (m : M A) (k : A -> M B) : M B :=
  fun w => match m w with
           | Ok a w' => k a w'
           | Err e w' => Err e w'
           end.
(** [try { m } catch (e) { h e }]: the handler starts from the world the
    failing computation left behind. *)
Definition try_catch {A} (m : M A) (h : Error -> M A) : M A :=
  fun w => match m w with
           | Ok a w' => Ok a w'
           | Err e w' => h e w'
           end.

Declare Scope m_scope.
Delimit Scope m_scope with M.
Notation "'let!' x := m 'in' k" := (bind m (fun x => k))
  (at level 10, x name, m at level 100, k at level 200) : m_scope.
Notation "'run!' m 'in' k" := (bind m (fun _ => k))
  (at level 10, m at level 100, k at level 200) : m_scope.
Local Open Scope m_scope.

Definition is_ok {A} (r : Result A) : bool :=
  match r with Ok _ _ => true | Err _ _ => false end.
Definition world_of {A} (r : Result A) : World :=
  match r with Ok _ w => w | Err _ w => w end.

Definition value_of {A} (d : A) (r : Result A) : A :=
  match r with Ok a _ => a | Err _ _ => d end.

(** The results of [n] calls of [m], one after the other. *)
Fixpoint repeatedly {A} (m : M A) (n : nat) (w : World) : list (Result A) :=
  match n with
  | O => []
  | S n' => let r := m w in r :: repeatedly m n' (world_of r)
  end.


Definition add_event (ev : Event) (w : World) : World :=
  mkWorld (files w) (dirs w) (rng w) (ev :: log w).
Definition set_files (fs : gmap string File) (w : World) : World :=
  mkWorld fs (dirs w) (rng w) (log w).

(** ** Fs: the calls into [fs/promises] *)

Module Fs.

(** [fs.access(p)], default mode: the path exists. *)
Definition access (p : string) : M unit := fun w =>
  if bool_decide (is_Some (files w !! p)) || bool_decide (p ∈ dirs w)
  then Ok tt w else Err (FsError "ENOENT" p) w.

(** [fs.readFile(p, 'utf-8')]. *)
Definition readFile (p : string) : M string := fun w =>
  match files w !! p with
  | Some f => if readable f then Ok (content f) w
              else Err (FsError "EACCES" p) w
  | None => if bool_decide (p ∈ dirs w) then Err (FsError "EISDIR" p) w
            else Err (FsError "ENOENT" p) w
  end.

(** Creating or truncating the file at [p]: the directory must exist and
    a file already there must be writable (it keeps its permissions); a
    new file can be read and written by its owner. *)
Definition dir_ok (p : string) (ds : gset string) : bool :=
  negb (bool_decide (p ∈ ds)) && bool_decide (Path.parent p ∈ ds).

Definition can_store (p : string) (w : World) : bool :=
  dir_ok p (dirs w) && from_option writable true (files w !! p).

Definition put (p data : string) (fs : gmap string File) : gmap string File :=
  <[p := mkFile data (from_option readable true (fs !! p)) true]> fs.

Definition store (p data : string) (w : World) : option World :=
  if can_store p w then Some (set_files (put p data (files w)) w) else None.

(** [fs.writeFile(p, data)]; a [mode] option only matters for the
    permissions of a new file, which the owner can read and write. *)
Definition writeFile (p data : string) : M unit := fun w =>
  match store p data w with
  | Some w' => Ok tt (add_event (EvWrite p data) w')
  | None => Err (FsError "EWRITE" p) w
  end.

(** [fs.unlink(p)]. *)
Definition unlink (p : string) : M unit := fun w =>
  match files w !! p with
  | Some _ => Ok tt (add_event (EvUnlink p) (set_files (delete p (files w)) w))
  | None => Err (FsError "ENOENT" p) w
  end.

(** All the directories on the way to [p], [p] included. *)
Fixpoint ancestors (fuel : nat) (p : string) : list string :=
  match fuel with
  | O => [p]
  | S n => if bool_decide (Path.parent p = p) then [p]
           else p :: ancestors n (Path.parent p)
  end.

(** [fs.mkdir(p, { recursive: true })]. *)
Definition mkdir_p (p : string) : M unit := fun w =>
  let ds := ancestors (String.length p) p in
  if bool_decide (Exists (λ d, is_Some (files w !! d)) ds)
  then Err (FsError "EEXIST" p) w
  else Ok tt (add_event (EvMkdir p)
                (mkWorld (files w) (list_to_set ds ∪ dirs w) (rng w) (log w))).

End Fs.

(** ** The environment: what the external tools compute *)

(** A JavaScript [Date]: milliseconds since the epoch, [None] for
    [Invalid Date]. *)
Definition Date : Type := option Z.

Record Env : Type := mkEnv {
  (** [crypto.createHash('sha256').update(s).digest('hex')] *)
  sha256_hex : string -> string;
  (** the stream behind [crypto.randomBytes] and [crypto.randomUUID] *)
  entropy : nat -> Byte.byte;
  (** whether an [openssl] binary is found *)
  openssl_installed : bool;
  (** [genrsa]: bits, passphrase of the AES-256 encryption if any, seed *)
  ossl_genrsa : Z -> option string -> nat -> string;
  (** [req -new -x509]: key file, passphrase, subject, days, seed *)
  ossl_req_x509 : string -> string -> string -> Z -> nat -> option string;
  (** [req -new]: key file, configuration file *)
  ossl_req_new : string -> string -> option string;
  (** [x509 -req -CAcreateserial]: request, CA certificate, CA key,
      extension section, extension file, passphrase, days, serial file
      found, seed; gives the certificate and the new serial file *)
  ossl_x509_req : string -> string -> string -> string -> string -> string ->
                  Z -> option string -> nat -> option (string * string);
  (** [-CAcreateserial] keeps the serial number next to the CA certificate,
      in a file named after it with the extension [.srl]; which dot of the
      name ends the stem is left to the tool *)
  ossl_srl_stem : string -> string;
  (** [x509 -noout -dates]: the text printed for a certificate file *)
  ossl_x509_dates : string -> option string;
  (** [new Date(s)] for a string *)
  date_parse : string -> Date
}.

(** ** Openssl: running a command through [exec] *)

Module Openssl.
Import Text.

(** The text handed to the shell, as the template literals of the source
    build it (a backslash at the end of a line joins it with the next). *)
Definition command_line (c : OpensslCmd) : string :=
  match c with
  | OsslVersion => "openssl version"
  | GenrsaAes256 out pass bits =>
      "openssl genrsa -out " +:+ out +:+ " -aes256 -passout pass:" +:+ pass
      +:+ " " +:+ string_of_Z bits
  | ReqNewX509 days key out pass subj =>
      "openssl req -new -x509 -days " +:+ string_of_Z days +:+
      "         -key " +:+ key +:+ "         -out " +:+ out +:+
      "         -passin pass:" +:+ pass +:+ "         -subj " +:+
      String dquote subj +:+ String dquote EmptyString
  | Genrsa out bits =>
      "openssl genrsa -out " +:+ out +:+ " " +:+ string_of_Z bits
  | ReqNew key out config =>
      "openssl req -new -key " +:+ key +:+ " -out " +:+ out +:+
      " -config " +:+ config
  | X509Req csr ca cakey out days extensions extfile pass =>
      "openssl x509 -req -in " +:+ csr +:+ "       -CA " +:+ ca +:+
      "       -CAkey " +:+ cakey +:+ "       -CAcreateserial       -out " +:+
      out +:+ "       -days " +:+ string_of_Z days +:+
      "       -sha256       -extensions " +:+ extensions +:+
      "       -extfile " +:+ extfile +:+ "       -passin pass:" +:+ pass
  | X509Dates cert => "openssl x509 -in " +:+ cert +:+ " -noout -dates"
  end.

Definition srl_path (E : Env) (ca : string) : string :=
  ossl_srl_stem E ca +:+ ".srl".

(** The files a command writes. *)
Definition outputs (E : Env) (c : OpensslCmd) : list string :=
  match c with
  | GenrsaAes256 out _ _ | ReqNewX509 _ _ out _ _ | Genrsa out _
  | ReqNew _ out _ => [out]
  | X509Req _ ca _ out _ _ _ _ => [srl_path E ca; out]
  | OsslVersion | X509Dates _ => []
  end.

(** An input file of the tool. *)
Definition input (p : string) (w : World) : option string :=
  f ← files w !! p; if readable f then Some (content f) else None.

Definition tick (w : World) : World :=
  mkWorld (files w) (dirs w) (S (rng w)) (log w).

(** What a command does to the world, and what it prints. *)
Definition run (E : Env) (c : OpensslCmd) (w : World)
  : option (string * World) :=
  if negb (openssl_installed E) then None else
  match c with
  | OsslVersion => Some ("OpenSSL", w)
  | GenrsaAes256 out pass bits =>
      w' ← Fs.store out (ossl_genrsa E bits (Some pass) (rng w)) (tick w);
      Some (EmptyString, w')
  | ReqNewX509 days key out pass subj =>
      k ← input key w;
      cert ← ossl_req_x509 E k pass subj days (rng w);
      w' ← Fs.store out cert (tick w);
      Some (EmptyString, w')
  | Genrsa out bits =>
      w' ← Fs.store out (ossl_genrsa E bits None (rng w)) (tick w);
      Some (EmptyString, w')
  | ReqNew key out config =>
      k ← input key w;
      cfg ← input config w;
      csr ← ossl_req_new E k cfg;
      w' ← Fs.store out csr w;
      Some (EmptyString, w')
  | X509Req csr ca cakey out days extensions extfile pass =>
      r ← input csr w;
      cacert ← input ca w;
      cak ← input cakey w;
      ext ← input extfile w;
      let srl := srl_path E ca in
      '(cert, serial) ← ossl_x509_req E r cacert cak extensions ext pass days
                          (input srl w) (rng w);
      w1 ← Fs.store srl serial (tick w);
      w2 ← Fs.store out cert w1;
      Some (EmptyString, w2)
  | X509Dates cert =>
      c ← input cert w;
      txt ← ossl_x509_dates E c;
      Some (txt, w)
  end.

(** [await execAsync(command)]: the promise is rejected when the command
    fails; otherwise it yields what the command printed. *)
Definition exec (E : Env) (c : OpensslCmd) : M string := fun w =>
  let w0 := add_event (EvExec c) w in
  match run E c w0 with
  | Some (out, w') => Ok out w'
  | None => Err (ExecError c) w0
  end.

End Openssl.

(** ** Crypto: the calls into Node's [crypto] *)

Module Crypto.
Import Text.

(** [crypto.randomBytes(n)] *)
Definition randomBytes (E : Env) (n : nat) : M (list Byte.byte) := fun w =>
  Ok (entropy E <$> seq (rng w) n)
     (mkWorld (files w) (dirs w) (rng w + n)%nat (log w)).

(** [crypto.randomUUID()] *)
Definition randomUUID (E : Env) : M string :=
  let! bytes := randomBytes E 16 in
  ret (uuid_v4 (Byte.to_N <$> bytes)).

End Crypto.

(** ** Regular expressions of [getCAInfo] *)

Module Regex.
Import Text.

(** Characters matched by [.]: all but line terminators. *)
Definition is_dot_char (c : ascii) : bool :=
  negb (is_char LF c || is_char "013"%char c).

Fixpoint take_while (p : ascii -> bool) (s : string) : string :=
  match s with
  | EmptyString => EmptyString
  | String c s' => if p c then String c (take_while p s') else EmptyString
  end.

Fixpoint skip (n : nat) (s : string) : string :=
  match n, s with
  | S n', String _ s' => skip n' s'
  | _, _ => s
  end.

(** [s.match(/key(.+)/)?.[1]]: the first place where [key] is followed by
    at least one character of the same line; the capture runs to the end
    of that line.  [None] stands for [undefined]. *)
Fixpoint capture_after (key s : string) : option string :=
  match s with
  | EmptyString => None
  | String _ s' =>
      let cap := take_while is_dot_char (skip (String.length key) s) in
      if starts_with key s && negb (is_empty cap) then Some cap
      else capture_after key s'
  end.

End Regex.

(** ** CertificateGenerator *)

Record CertificateInfo : Type := mkCertificateInfo {
  deviceId : string;
  equipmentId : Z;
  fingerprint : string;
  certificatePath : string;
  privateKeyPath : string
}.

Record CAInfo : Type := mkCAInfo {
  ca_fingerprint : string;
  notBefore : Date;
  notAfter : Date
}.

Record CertificateGenerator : Type := mkGenerator {
  caDir : string;
  certsDir : string;
  caCertPath : string;
  caKeyPath : string;
  caPasswordPath : string
}.

Module Generator.
Import Text.

(** The constructor. *)
Definition new (baseDir : string) : CertificateGenerator :=
  let caDir := Path.join baseDir "ca" in
  {| caDir := caDir;
     certsDir := Path.join baseDir "device-certs";
     caCertPath := Path.join caDir "ca-cert.pem";
     caKeyPath := Path.join caDir "ca-key.pem";
     caPasswordPath := Path.join caDir "ca-password.txt" |}.

Definition ca_subject : string :=
  "/C=NL/ST=Noord-Holland/L=Amsterdam/O=Poem Booth/CN=Poem Booth Root CA".

Definition privateKeyPath_of (g : CertificateGenerator) (assetTag : string) :=
  Path.join (certsDir g) (assetTag +:+ "-key.pem").
Definition certPath_of (g : CertificateGenerator) (assetTag : string) :=
  Path.join (certsDir g) (assetTag +:+ "-cert.pem").
Definition csrPath_of (g : CertificateGenerator) (assetTag : string) :=
  Path.join (certsDir g) (assetTag +:+ ".csr").
Definition configPath_of (g : CertificateGenerator) (assetTag : string) :=
  Path.join (certsDir g) (assetTag +:+ "-openssl.cnf").

(** The OpenSSL configuration with the subject alternative names. *)
Definition opensslConfig (deviceId assetTag hubId : string) (equipmentId : Z)
  : string :=
"
[req]
distinguished_name = req_distinguished_name
req_extensions = v3_req
prompt = no

[req_distinguished_name]
C = NL
ST = Noord-Holland
L = Amsterdam
O = Poem Booth
CN = " +:+ deviceId +:+ "

[v3_req]
basicConstraints = CA:FALSE
keyUsage = digitalSignature, keyEncipherment
extendedKeyUsage = clientAuth
subjectAltName = @alt_names

[alt_names]
URI.1 = urn:device:" +:+ deviceId +:+ "
URI.2 = urn:equipment:" +:+ string_of_Z equipmentId +:+ "
URI.3 = urn:hub:" +:+ hubId +:+ "
DNS.1 = " +:+ assetTag +:+ ".booth.internal
".



Section WithEnv.
Variable E : Env.
Variable g : CertificateGenerator.

Definition validatePrerequisites : M unit :=
  run! try_catch (let! _ := Openssl.exec E OsslVersion in ret tt)
         (fun _ => throw (JsError "OpenSSL not found. Please install OpenSSL."))
  in
  run! Fs.mkdir_p (caDir g) in
  Fs.mkdir_p (certsDir g).

(** The [try] block of [ensureCAExists]. *)
Definition loadCA : M (string * bool) :=
  run! Fs.access (caCertPath g) in
  let! caCertContent := Fs.readFile (caCertPath g) in
  ret (caCertContent, false).

(** The [catch] block of [ensureCAExists]: generate a new CA. *)
Definition generateCA : M (string * bool) :=
  let! bytes := Crypto.randomBytes E 32 in
  let caPassword := hex_of_bytes bytes in
  run! Openssl.exec E (GenrsaAes256 (caKeyPath g) caPassword 4096) in
  run! Openssl.exec E
         (ReqNewX509 3650 (caKeyPath g) (caCertPath g) caPassword ca_subject)
  in
  run! Fs.writeFile (caPasswordPath g) caPassword in
  let! caCertContent := Fs.readFile (caCertPath g) in
  ret (caCertContent, true).

Definition ensureCAExists : M (string * bool) :=
  try_catch loadCA (fun _ => generateCA).

(** [generateDeviceCertificate] up to the fingerprint. *)
Definition issueDeviceCertificate (assetTag hubId : string)
    (equipmentId : Z) : M CertificateInfo :=
  let! deviceId := Crypto.randomUUID E in
  let privateKeyPath := privateKeyPath_of g assetTag in
  let certPath := certPath_of g assetTag in
  let csrPath := csrPath_of g assetTag in
  let configPath := configPath_of g assetTag in
  run! Fs.writeFile configPath
         (trim (opensslConfig deviceId assetTag hubId equipmentId)) in
  run! Openssl.exec E (Genrsa privateKeyPath 2048) in
  run! Openssl.exec E (ReqNew privateKeyPath csrPath configPath) in
  let! caPassword := Fs.readFile (caPasswordPath g) in
  run! Openssl.exec E
         (X509Req csrPath (caCertPath g) (caKeyPath g) certPath 3650
            "v3_req" configPath (trim caPassword)) in
  let! certContent := Fs.readFile certPath in
  let fingerprint := sha256_hex E certContent in
  ret {| deviceId := deviceId;
         equipmentId := equipmentId;
         fingerprint := fingerprint;
         certificatePath := certPath;
         privateKeyPath := privateKeyPath |}.

(** The end of [generateDeviceCertificate]: cleanup of the temporary
    files, [fs.unlink(p).catch(() => {})] twice. *)
Definition cleanupTemporaryFiles (assetTag : string) : M unit :=
  run! try_catch (Fs.unlink (csrPath_of g assetTag)) (fun _ => ret tt) in
  try_catch (Fs.unlink (configPath_of g assetTag)) (fun _ => ret tt).

Definition generateDeviceCertificate (assetTag hubId : string)
    (equipmentId : Z) : M CertificateInfo :=
  let! info := issueDeviceCertificate assetTag hubId equipmentId in
  run! cleanupTemporaryFiles assetTag in
  ret info.

(** [new Date(x)] for a string or [undefined]. *)
Definition new_Date (x : option string) : Date :=
  match x with Some s => date_parse E s | None => None end.

Definition getCAInfo : M CAInfo :=
  let! caCertContent := Fs.readFile (caCertPath g) in
  let fingerprint := sha256_hex E caCertContent in
  let! certInfo := Openssl.exec E (X509Dates (caCertPath g)) in
  let notBeforeStr := Regex.capture_after "notBefore=" certInfo in
  let notAfterStr := Regex.capture_after "notAfter=" certInfo in
  ret {| ca_fingerprint := fingerprint;
         notBefore := new_Date notBeforeStr;
         notAfter := new_Date notAfterStr |}.

Definition getCAPath : string := caCertPath g.

Definition readCACertificate : M string := Fs.readFile (caCertPath g).

End WithEnv.

End Generator.

(** ** Conf: how [openssl] reads the subject alternative names

    The fragment of OpenSSL's configuration syntax that the template of
    [opensslConfig] is written in: one [name = value] per line, a section
    running from its [[name]] header to the next header or to the end of
    the file, white space around names and values dropped.  A section that
    uses more of the syntax (comments, quotes, escapes, variables) is not
    read by this model: the result is [None]. *)


Module Conf.
Import Text.













End Conf.


(** ** Two sentences of the specification, as predicates on the model *)




(** ** DeviceRegistrar: [uploadCAToDatabase] *)

Record PostgrestError : Type := mkPostgrestError {
  code : string;
  message : string
}.

Record TrustedCA : Type := mkTrustedCA {
  name : string;
  certificate : string;
  ca_row_fingerprint : string;
  valid_from : string;
  valid_until : string;
  is_active : bool
}.

(** What a method of the registrar does: it returns, or throws an error
    with a message. *)
Inductive Outcome : Type :=
  | Returned
  | Thrown (msg : string).

Module Registrar.

Section WithStore.
(** The datastore behind the Supabase client: its state, and what an
    insert into [trusted_device_cas] does and answers. *)
Variable Db : Type.
Variable insert_trusted_device_cas :
  TrustedCA -> Db -> Db * option PostgrestError.
(** [Date.prototype.toISOString] on a valid date. *)
Variable iso_string : Z -> string.

(** [toISOString] throws a [RangeError] on an invalid date. *)
Definition toISOString (d : Date) : option string := iso_string <$> d.

Definition uploadCAToDatabase (caCertContent fingerprint : string)
    (notBefore notAfter : Date) (db : Db) : Db * Outcome :=
  match toISOString notBefore, toISOString notAfter with
  | Some valid_from, Some valid_until =>
      let '(db', error) :=
        insert_trusted_device_cas
          {| name := "Poem Booth Root CA";
             certificate := caCertContent;
             ca_row_fingerprint := fingerprint;
             valid_from := valid_from;
             valid_until := valid_until;
             is_active := true |} db in
      (* Ignore duplicate error (code 23505) *)
      match error with
      | Some e =>
          if negb (bool_decide (code e = "23505"))
          then (db', Thrown ("Failed to upload CA: " +:+ message e))
          else (db', Returned)
      | None => (db', Returned)
      end
  | _, _ => (db, Thrown "Invalid time value")
  end.

End WithStore.

End Registrar.

(** ** DeviceRegistrar: the methods that talk to the datastore

    The Supabase client is a remote service.  Its state is the list of the
    requests it has received, latest first; what it answers to a request is
    a function of that list, so that every deterministic service is
    covered.  A request stands for one chain of query builder calls of the
    source. *)

Record Hub : Type := mkHub {
  hub_id : string;
  hub_name : string;
  hub_region_code : string
}.

Record DeviceSetupOptions : Type := mkOptions {
  opt_assetTag : string;
  opt_hubId : string;
  opt_serial : option string;
  opt_equipmentType : option string
}.

(** The row inserted into [equipment_inventory]. *)
Record EquipmentRow : Type := mkEquipmentRow {
  eq_asset_tag : string;
  eq_hub_id : string;
  eq_equipment_type : string;
  eq_device_serial : option string;
  eq_status : string
}.

(** The row inserted into [registered_devices]. *)
Record DeviceRow : Type := mkDeviceRow {
  dev_device_id : string;
  dev_equipment_id : Z;
  dev_certificate : string;
  dev_fingerprint : string;
  dev_serial_number : option string;
  dev_status : string
}.

Inductive Request : Type :=
  (** [from('hubs').select('id').limit(1)] *)
  | SelectHubIds
  (** [from('hubs').select('id, name, region_code').order('name')] *)
  | SelectHubs
  (** [from('equipment_inventory').select(..).eq('asset_tag', t)
      .eq('hub_id', h).single()] *)
  | SelectEquipment (asset_tag hub : string)
  (** [from('equipment_inventory').insert(row).select('id').single()] *)
  | InsertEquipment (row : EquipmentRow)
  (** [from('trusted_device_cas').insert(row)] *)
  | InsertTrustedCA (row : TrustedCA)
  (** [from('registered_devices').insert(row)] *)
  | InsertDevice (row : DeviceRow)
  (** [from('equipment_inventory').update({device_id,
      device_certificate_fingerprint}).eq('id', id)] *)
  | UpdateEquipment (id : Z) (device_id device_fingerprint : string).

Definition Db : Type := list Request.

(** What the service answers, given the requests received before: the
    [data] and the [error] of the response. *)
Record Service : Type := mkService {
  hub_ids_error : Db -> option PostgrestError;
  hubs_answer : Db -> option (list Hub) * option PostgrestError;
  equipment_found : Db -> string -> string -> option Z;
  equipment_created : Db -> EquipmentRow -> option Z * option PostgrestError;
  ca_insert_error : Db -> TrustedCA -> option PostgrestError;
  device_insert_error : Db -> DeviceRow -> option PostgrestError;
  equipment_update_error : Db -> Z -> string -> string -> option PostgrestError
}.

(** How a promise is settled. *)
Inductive Settled (A : Type) : Type :=
  | Resolved (a : A)
  | Failed (e : Error).
Arguments Resolved {A} a.
Arguments Failed {A} e.

(** The rows sent to [trusted_device_cas] so far. *)
Definition ca_uploads (db : Db) : list TrustedCA :=
  omap (fun r => match r with InsertTrustedCA row => Some row | _ => None end)
    db.

Module DeviceRegistrar.

Section WithService.
Variable S : Service.
(** [Date.prototype.toISOString] on a valid date. *)
Variable iso_string : Z -> string.

Definition validateConnection (db : Db) : Db * Settled unit :=
  let error := hub_ids_error S db in
  let db' := SelectHubIds :: db in
  match error with
  | Some e =>
      (db', Failed (JsError ("Failed to connect to Supabase: " +:+ message e)))
  | None => (db', Resolved tt)
  end.

Definition fetchHubs (db : Db) : Db * Settled (list Hub) :=
  let '(data, error) := hubs_answer S db in
  let db' := SelectHubs :: db in
  match error with
  | Some e => (db', Failed (JsError ("Failed to fetch hubs: " +:+ message e)))
  | None => (db', Resolved (default [] data))
  end.

(** [x || d] for an optional string: [undefined] and the empty string are
    both falsy. *)
Definition or_else (x : option string) (d : string) : string :=
  match x with
  | Some s => if Text.is_empty s then d else s
  | None => d
  end.

(** The lookup takes the [data] of the response only: its [error] is not
    looked at.  [created.id] throws a [TypeError] when [created] is
    [null]. *)
Definition ensureEquipmentExists (options : DeviceSetupOptions)
    (deviceId : string) (db : Db) : Db * Settled Z :=
  let existing :=
    equipment_found S db (opt_assetTag options) (opt_hubId options) in
  let db1 := SelectEquipment (opt_assetTag options) (opt_hubId options) :: db in
  match existing with
  | Some id => (db1, Resolved id)
  | None =>
      let row := {| eq_asset_tag := opt_assetTag options;
                    eq_hub_id := opt_hubId options;
                    eq_equipment_type :=
                      or_else (opt_equipmentType options) "poem_booth";
                    eq_device_serial := opt_serial options;
                    eq_status := "pending_activation" |} in
      let '(created, error) := equipment_created S db1 row in
      let db2 := InsertEquipment row :: db1 in
      match error with
      | Some e =>
          (db2, Failed (JsError ("Failed to create equipment: " +:+ message e)))
      | None =>
          match created with
          | Some id => (db2, Resolved id)
          | None =>
              (db2, Failed (JsError
                              "Cannot read properties of null (reading 'id')"))
          end
      end
  end.

Definition insert_trusted_device_cas (row : TrustedCA) (db : Db)
  : Db * option PostgrestError :=
  (InsertTrustedCA row :: db, ca_insert_error S db row).

(** [uploadCAToDatabase] over this service. *)
Definition uploadCAToDatabase (caCertContent fingerprint : string)
    (notBefore notAfter : Date) (db : Db) : Db * Settled unit :=
  match Registrar.uploadCAToDatabase Db insert_trusted_device_cas iso_string
          caCertContent fingerprint notBefore notAfter db with
  | (db', Returned) => (db', Resolved tt)
  | (db', Thrown msg) => (db', Failed (JsError msg))
  end.

(** The certificate is read from the file system first. *)
Definition preRegisterDevice (options : DeviceSetupOptions)
    (certInfo : CertificateInfo) (w : World) (db : Db) : Db * Settled unit :=
  match Fs.readFile (certificatePath certInfo) w with
  | Err e _ => (db, Failed e)
  | Ok certificateContent _ =>
      let row := {| dev_device_id := deviceId certInfo;
                    dev_equipment_id := equipmentId certInfo;
                    dev_certificate := certificateContent;
                    dev_fingerprint := fingerprint certInfo;
                    dev_serial_number := opt_serial options;
                    dev_status := "ready_to_deploy" |} in
      let db1 := InsertDevice row :: db in
      match device_insert_error S db row with
      | Some e =>
          (db1, Failed (JsError ("Failed to register device: " +:+ message e)))
      | None =>
          let db2 := UpdateEquipment (equipmentId certInfo)
                       (deviceId certInfo) (fingerprint certInfo) :: db1 in
          match equipment_update_error S db1 (equipmentId certInfo)
                  (deviceId certInfo) (fingerprint certInfo) with
          | Some e =>
              (db2, Failed (JsError ("Failed to update equipment: "
                                     +:+ message e)))
          | None => (db2, Resolved tt)
          end
      end
  end.

End WithService.

End DeviceRegistrar.

(** ** The command line tool: [main] of [index.ts]

    The answers to the prompts are inputs.  The console output and the
    spinner are left out. *)

Record Answers : Type := mkAnswers {
  ans_assetTag : string;
  ans_hubId : string;
  ans_serial : string;
  ans_equipmentType : string;
  ans_confirm : bool
}.

(** How [main] ends before its last line: [process.exit(1)] without hubs,
    [process.exit(0)] without confirmation, and [process.exit(1)] in the
    [catch] block. *)
Inductive Ending : Type :=
  | NoHubs
  | Cancelled
  | SetupFailed (e : Error).

Definition exit_code (e : Ending) : Z :=
  match e with Cancelled => 0 | NoHubs | SetupFailed _ => 1 end.

(** A step of [main]: it ends the process, or goes on with a value; the
    file system and the datastore are threaded through. *)
Definition Proc (A : Type) : Type :=
  World -> Db -> (Ending + A) * World * Db.

Definition yield {A} (a : A) : Proc A := fun w db => (inr a, w, db).
Definition exit {A} (e : Ending) : Proc A := fun w db => (inl e, w, db).
Definition pbind {A B} (m : Proc A) (k : A -> Proc B) : Proc B :=
  fun w db =>
    match m w db with
    | (inr a, w', db') => k a w' db'
    | (inl e, w', db') => (inl e, w', db')
    end.

(** A call of the generator; a rejected promise ends in the [catch]. *)
Definition local {A} (m : M A) : Proc A := fun w db =>
  match m w with
  | Ok a w' => (inr a, w', db)
  | Err e w' => (inl (SetupFailed e), w', db)
  end.

(** A call of the registrar. *)
Definition remote {A} (f : Db -> Db * Settled A) : Proc A := fun w db =>
  match f db with
  | (db', Resolved a) => (inr a, w, db')
  | (db', Failed e) => (inl (SetupFailed e), w, db')
  end.

Declare Scope proc_scope.
Delimit Scope proc_scope with P.
Notation "'let*' x := m 'in' k" := (pbind m (fun x => k))
  (at level 10, x name, m at level 100, k at level 200) : proc_scope.
Notation "'run*' m 'in' k" := (pbind m (fun _ => k))
  (at level 10, m at level 100, k at level 200) : proc_scope.

Inductive Validation : Type :=
  | Valid
  | Invalid (msg : string).

Module Cli.
Import Text.

(** The [validate] functions of the prompts. *)
Definition validateSupabaseUrl (input : string) : Validation :=
  if negb (starts_with "http" input) then Invalid "Please enter a valid URL"
  else Valid.

Definition validateSupabaseKey (input : string) : Validation :=
  if is_empty input || (String.length input <? 20)%nat
  then Invalid "Please enter a valid service role key"
  else Valid.


Section WithEnv.
Variable E : Env.
Variable S : Service.
Variable iso_string : Z -> string.
(** [process.cwd()] *)
Variable cwd : string.

Local Open Scope proc_scope.

(** [answers.serial || undefined] *)
Definition serial_option (serial : string) : option string :=
  if is_empty serial then None else Some serial.

Definition options_of (answers : Answers) : DeviceSetupOptions :=
  {| opt_assetTag := ans_assetTag answers;
     opt_hubId := ans_hubId answers;
     opt_serial := serial_option (ans_serial answers);
     opt_equipmentType := Some (ans_equipmentType answers) |}.

(** Step 3 of [main]: from [new CertificateGenerator()] to the
    registration of the device. *)
Definition provision (answers : Answers) : Proc CertificateInfo :=
  let certGen := Generator.new cwd in
  run* local (Generator.validatePrerequisites E certGen) in
  let* ca := local (Generator.ensureCAExists E certGen) in
  let caCertContent := fst ca in
  let isNew := snd ca in
  run* (if isNew then
          let* caInfo := local (Generator.getCAInfo E certGen) in
          remote (DeviceRegistrar.uploadCAToDatabase S iso_string
                    caCertContent (ca_fingerprint caInfo)
                    (notBefore caInfo) (notAfter caInfo))
        else yield tt) in
  let deviceId := EmptyString in
  let* equipmentId :=
    remote (DeviceRegistrar.ensureEquipmentExists S (options_of answers)
              deviceId) in
  let* certInfo :=
    local (Generator.generateDeviceCertificate E certGen
             (ans_assetTag answers) (ans_hubId answers) equipmentId) in
  run* (fun w => remote (DeviceRegistrar.preRegisterDevice S
                           (options_of answers) certInfo w) w) in
  yield certInfo.

Definition main (answers : Answers) : Proc CertificateInfo :=
  run* remote (DeviceRegistrar.validateConnection S) in
  let* hubs := remote (DeviceRegistrar.fetchHubs S) in
  if (length hubs =? 0)%nat then exit NoHubs
  else if negb (ans_confirm answers) then exit Cancelled
  else provision answers.

End WithEnv.

End Cli.

(** ** Predicates of the statements on paths, files and requests

    Paths by their segments. *)

Section PathPredicates.
Import Text.
Import Path.




(** The segments that normalisation leaves of [p]. *)
Definition segs (p : string) : list string :=
  norm_segs (negb (is_absolute p)) [] (split_on slash p).



End PathPredicates.

(** [w'] differs from [w] in no file but those at the paths [ps], and in
    no directory. *)
Definition touches_only (ps : list string) (w w' : World) : Prop :=
  dirs w' = dirs w /\ forall p, p ∉ ps -> files w' !! p = files w !! p.

(** The files of the authority, and the files that issuing for an asset
    tag can write. *)
Definition ca_files (g : CertificateGenerator) : list string :=
  [caKeyPath g; caCertPath g; caPasswordPath g].



(** Text without an equals sign, and text without a line terminator. *)
Definition no_equals (s : string) : bool :=
  Text.all_chars (fun c => negb (Text.is_char "="%char c)) s.

Definition one_line (s : string) : bool :=
  Text.all_chars Regex.is_dot_char s.


(** The same rows have been sent to [trusted_device_cas]. *)
Definition same_uploads (db db' : Db) : Prop :=
  ca_uploads db' = ca_uploads db.

(** Steps that end the process only by a failure. *)
Definition fails_only {A} (m : Proc A) : Prop :=
  forall w db e w' db',
    m w db = (inl e, w', db') -> exists err, e = SetupFailed err.


(** ** A sample environment and sample worlds, for the examples *)

Module Sample.
Import Text.

Definition genrsa (bits : Z) (pass : option string) (seed : nat) : string :=
  "RSA" +:+ string_of_Z bits +:+ "#" +:+ string_of_Z (Z.of_nat seed)
  +:+ match pass with Some p => "/aes256:" +:+ p | None => EmptyString end.

(** The serial file of OpenSSL 1.1: the CA file name cut at its first dot. *)
Definition srl_stem (ca : string) : string :=
  Regex.take_while (fun c => negb (is_char "."%char c)) ca.

Definition dates_text : string :=
"notBefore=Jan  1 00:00:00 2025 GMT
notAfter=Dec 30 00:00:00 2034 GMT
".

Definition parse (s : string) : Date :=
  if bool_decide (s = "Jan  1 00:00:00 2025 GMT") then Some 1735689600000
  else if bool_decide (s = "Dec 30 00:00:00 2034 GMT") then Some 2050963200000
  else None.

Definition env : Env := {|
  sha256_hex := fun s => "sha256(" +:+ s +:+ ")";
  entropy := fun n => default Byte.x00 (Byte.of_N (N.of_nat n mod 256));
  openssl_installed := true;
  ossl_genrsa := genrsa;
  ossl_req_x509 := fun key pass subj days seed =>
    Some ("CACERT{" +:+ key +:+ "}");
  ossl_req_new := fun key config => Some ("CSR{" +:+ key +:+ "}");
  ossl_x509_req := fun csr ca cakey extensions ext pass days srl seed =>
    Some ("CERT{" +:+ csr +:+ "}", "01");
  ossl_srl_stem := srl_stem;
  ossl_x509_dates := fun _ => Some dates_text;
  date_parse := parse
|}.

Definition gen : CertificateGenerator := Generator.new "/srv/booth".

(** A machine on which nothing has been set up but the base directory. *)
Definition empty_world : World :=
  mkWorld ∅ {["/"; "/srv"; "/srv/booth"]} 0 [].

(** After [validatePrerequisites]. *)
Definition fresh_world : World :=
  world_of (Generator.validatePrerequisites env gen empty_world).

(** After the bootstrap of the authority. *)
Definition ca_world : World :=
  world_of (Generator.ensureCAExists env gen fresh_world).

(** The certificate of the CA in [ca_world]. *)
Definition ca_cert : string :=
  fst (value_of (EmptyString, false)
         (Generator.ensureCAExists env gen fresh_world)).

(** Issuing a certificate for the booth PB-005. *)
Definition pb005 : Result CertificateInfo :=
  Generator.generateDeviceCertificate env gen "PB-005" "hub-1" 42 ca_world.




Definition no_info : CertificateInfo :=
  mkCertificateInfo EmptyString 0 EmptyString EmptyString EmptyString.

(** The same machine after the CA certificate has lost its read
    permission (or when reading it fails for another reason). *)
Definition locked_world : World :=
  set_files
    (alter (fun f => mkFile (content f) false (writable f)) (caCertPath gen)
       (files ca_world))
    ca_world.

End Sample.

(** ** A sample datastore and a sample run of the command line tool *)

Module Demo.

Definition hub : Hub := mkHub "hub-1" "Amsterdam" "NL".

(** A datastore that accepts every request; it knows one hub and no
    equipment, and numbers the new equipment 42. *)
Definition service : Service := {|
  hub_ids_error := fun _ => None;
  hubs_answer := fun _ => (Some [hub], None);
  equipment_found := fun _ _ _ => None;
  equipment_created := fun _ _ => (Some 42, None);
  ca_insert_error := fun _ _ => None;
  device_insert_error := fun _ _ => None;
  equipment_update_error := fun _ _ _ _ => None
|}.

(** The milliseconds since the epoch, printed: it stands for the ISO
    format. *)
Definition iso_string (z : Z) : string := Text.string_of_Z z.

Definition answers : Answers := mkAnswers "PB-005" "hub-1" EmptyString
                                  "poem_booth" true.

Definition options : DeviceSetupOptions := Cli.options_of answers.

(** The first run of the tool in [/srv/booth]. *)
Definition run : (Ending + CertificateInfo) * World * Db :=
  Cli.main Sample.env service iso_string "/srv/booth" answers
    Sample.empty_world [].

Definition run_info : CertificateInfo :=
  match fst (fst run) with inr info => info | inl _ => Sample.no_info end.



End Demo.


(** * Facts *)

(** ** Strings *)

Section TextFacts.
Import Text.

Lemma app_cons a s t : String a s +:+ t = String a (s +:+ t).
Proof. reflexivity. Qed.

Lemma app_empty_l t : EmptyString +:+ t = t.
Proof. reflexivity. Qed.

Lemma app_empty_r s : s +:+ EmptyString = s.
Proof. induction s as [|a s IH]; [done|]. by rewrite app_cons, IH. Qed.

Lemma app_assoc s t u : (s +:+ t) +:+ u = s +:+ t +:+ u.
Proof. induction s as [|a s IH]; [done|]. by rewrite !app_cons, IH. Qed.


Lemma is_empty_app s t : is_empty (s +:+ t) = is_empty s && is_empty t.
Proof. by destruct s. Qed.


Lemma last_char_cons a s :
  last_char (String a s) = if is_empty s then Some a else last_char s.
Proof. by destruct s. Qed.

Lemma last_char_app s t :
  is_empty t = false -> last_char (s +:+ t) = last_char t.
Proof.
  intros Ht. induction s as [|a s IH]; [done|].
  rewrite app_cons, last_char_cons, is_empty_app, Ht, andb_false_r. done.
Qed.






(** A string without separator is one segment; a separator ends the
    first segment. *)
Lemma split_on_none sep s :
  all_chars (fun c => negb (is_char sep c)) s = true -> split_on sep s = [s].
Proof.
  induction s as [|a s IH]; [done|]. simpl.
  intros [Ha Hs]%andb_true_iff. apply negb_true_iff in Ha.
  rewrite Ha, (IH Hs). done.
Qed.


Lemma split_on_nonempty sep s : split_on sep s <> [].
Proof.
  destruct s as [|a s]; simpl; [done|].
  destruct (is_char sep a); [done|]. by destruct (split_on sep s).
Qed.

(** Appending text without separator extends the last segment. *)
Lemma split_on_app_last sep s t :
  all_chars (fun c => negb (is_char sep c)) t = true ->
  split_on sep (s +:+ t) =
  removelast (split_on sep s) ++ [List.last (split_on sep s) EmptyString +:+ t].
Proof.
  intros Ht. induction s as [|a s IH].
  - rewrite app_empty_l. simpl. by apply split_on_none.
  - rewrite app_cons. simpl. destruct (is_char sep a).
    + rewrite IH. pose proof (split_on_nonempty sep s).
      destruct (split_on sep s) as [|x l]; [done|]. done.
    + rewrite IH. pose proof (split_on_nonempty sep s).
      destruct (split_on sep s) as [|x l]; [done|].
      destruct l as [|y l]; simpl; [done|]. done.
Qed.

End TextFacts.

(** ** Paths: normalisation keeps the end of a file name *)

Section PathFacts.
Import Text.
Import Path.

Lemma good_suffix_nonempty suf : good_suffix suf = true -> is_empty suf = false.
Proof. by destruct suf. Qed.

Lemma good_suffix_last suf :
  good_suffix suf = true ->
  exists c, last_char suf = Some c /\ c <> "."%char /\ c <> slash.
Proof.
  unfold good_suffix. intros [Hall Hl]%andb_true_iff.
  destruct (last_char suf) as [c|] eqn:Hc; [|done].
  exists c. split; [done|]. split.
  - intros ->. done.
  - intros ->. clear Hl. induction suf as [|a s IH]; [done|].
    simpl in Hall. apply andb_true_iff in Hall as [Ha Hs].
    rewrite last_char_cons in Hc. destruct (is_empty s); [|by auto].
    injection Hc as ->. done.
Qed.

(** A segment with such an end is neither empty nor a dot segment. *)
Lemma ordinary_segment l suf :
  good_suffix suf = true ->
  is_empty (l +:+ suf) = false /\ Path.is_dot (l +:+ suf) = false /\
  Path.is_dotdot (l +:+ suf) = false.
Proof.
  intros Hs. pose proof (good_suffix_nonempty _ Hs) as Hne.
  destruct (good_suffix_last _ Hs) as (c & Hc & Hdot & _).
  assert (last_char (l +:+ suf) = Some c) as Hl by by rewrite last_char_app.
  split; [by rewrite is_empty_app, Hne, andb_false_r|].
  split; apply String.eqb_neq; intros Heq; rewrite Heq in Hl;
    simpl in Hl; congruence.
Qed.

Lemma norm_segs_snoc allow acc init seg :
  is_empty seg = false -> Path.is_dot seg = false ->
  Path.is_dotdot seg = false ->
  Path.norm_segs allow acc (init ++ [seg]) =
  Path.norm_segs allow acc init ++ [seg].
Proof.
  intros H1 H2 H3. revert acc.
  induction init as [|x init IH]; intros acc; simpl.
  - by rewrite H1, H2, H3.
  - destruct (is_empty x || Path.is_dot x); [by apply IH|].
    destruct (Path.is_dotdot x); [|by apply IH].
    destruct acc as [|top acc]; [by apply IH|].
    destruct (Path.is_dotdot top); by apply IH.
Qed.

Lemma join_with_snoc sep l seg :
  exists q, join_with sep (l ++ [seg]) = q +:+ seg.
Proof.
  induction l as [|x l [q IH]]; simpl.
  - by exists EmptyString.
  - rewrite IH. destruct (l ++ [seg]) eqn:Hl.
    + by destruct l.
    + exists (x +:+ sep +:+ q). by rewrite !app_assoc.
Qed.

Lemma normalize_suffix p suf :
  good_suffix suf = true -> exists q, Path.normalize (p +:+ suf) = q +:+ suf.
Proof.
  intros Hs. unfold Path.normalize.
  pose proof (good_suffix_nonempty _ Hs) as Hne.
  rewrite is_empty_app, Hne, andb_false_r.
  apply andb_true_iff in Hs as Hs'. destruct Hs' as [Hall _].
  rewrite (split_on_app_last _ _ _ Hall).
  destruct (ordinary_segment (List.last (split_on slash p) EmptyString) suf Hs)
    as (H1 & H2 & H3).
  rewrite (norm_segs_snoc _ _ _ _ H1 H2 H3).
  destruct (join_with_snoc "/" (Path.norm_segs (negb (Path.is_absolute (p +:+ suf)))
     [] (removelast (split_on slash p)))
     (List.last (split_on slash p) EmptyString +:+ suf)) as [q ->].
  rewrite !is_empty_app, Hne, !andb_false_r.
  destruct (good_suffix_last _ Hs) as (c & Hc & _ & Hsl).
  assert (Path.has_trailing_slash (p +:+ suf) = false) as ->.
  { apply bool_decide_eq_false. rewrite last_char_app, Hc by done. congruence. }
  rewrite app_empty_r.
  eexists. rewrite <- !app_assoc. reflexivity.
Qed.

Lemma join_suffix a t suf :
  good_suffix suf = true -> exists q, Path.join a (t +:+ suf) = q +:+ suf.
Proof.
  intros Hs. unfold Path.join.
  rewrite is_empty_app, (good_suffix_nonempty _ Hs), andb_false_r.
  destruct (is_empty a).
  - by apply normalize_suffix.
  - rewrite <- !app_assoc. by apply normalize_suffix.
Qed.

Lemma join_last_char a t suf :
  good_suffix suf = true ->
  last_char (Path.join a (t +:+ suf)) = last_char suf.
Proof.
  intros Hs. destruct (join_suffix a t suf Hs) as [q ->].
  apply last_char_app. by apply good_suffix_nonempty.
Qed.


End PathFacts.

(** ** The monad and the file system *)

Section MonadFacts.

Lemma bind_Ok {A B} (m : M A) (k : A -> M B) w b w' :
  bind m k w = Ok b w' <-> exists a w1, m w = Ok a w1 /\ k a w1 = Ok b w'.
Proof.
  unfold bind. destruct (m w) as [a w1|e w1]; split.
  - eauto.
  - by intros (? & ? & [= <- <-] & ?).
  - done.
  - by intros (? & ? & ? & ?).
Qed.

Lemma bind_Err {A B} (m : M A) (k : A -> M B) w e w' :
  bind m k w = Err e w' <->
  m w = Err e w' \/ exists a w1, m w = Ok a w1 /\ k a w1 = Err e w'.
Proof.
  unfold bind. destruct (m w) as [a w1|e1 w1]; split.
  - intros. right. eauto.
  - by intros [|(? & ? & [= <- <-] & ?)].
  - intros [= -> ->]. by left.
  - intros [[= -> ->]|(? & ? & H & ?)]; [done | discriminate H].
Qed.

Lemma access_Ok p w u w' :
  Fs.access p w = Ok u w' ->
  w' = w /\ (is_Some (files w !! p) \/ p ∈ dirs w).
Proof.
  unfold Fs.access. destruct (_ || _) eqn:H; [|done]. intros [= _ <-].
  split; [done|]. apply orb_true_iff in H as [H|H];
    apply bool_decide_eq_true in H; auto.
Qed.

Lemma access_file p w f :
  files w !! p = Some f -> Fs.access p w = Ok tt w.
Proof.
  intros H. unfold Fs.access. rewrite H.
  by rewrite bool_decide_eq_true_2 by eauto.
Qed.

Lemma access_world p w : world_of (Fs.access p w) = w.
Proof. unfold Fs.access. by destruct (_ || _). Qed.

Lemma readFile_Ok p w c w' :
  Fs.readFile p w = Ok c w' <->
  w' = w /\ exists f, files w !! p = Some f /\ readable f = true /\ content f = c.
Proof.
  unfold Fs.readFile. split.
  - destruct (files w !! p) as [f|]; [|by case_bool_decide].
    destruct (readable f) eqn:Hr; [|done]. intros [= <- <-]. eauto.
  - intros (-> & f & -> & -> & <-). done.
Qed.


Lemma readFile_world p w : world_of (Fs.readFile p w) = w.
Proof.
  unfold Fs.readFile. destruct (files w !! p) as [f|].
  - by destruct (readable f).
  - by case_bool_decide.
Qed.

Lemma lookup_put p data fs q :
  Fs.put p data fs !! q =
  if decide (p = q)
  then Some (mkFile data (from_option readable true (fs !! p)) true)
  else fs !! q.
Proof. unfold Fs.put. apply lookup_insert. Qed.

Lemma lookup_put_ne p data fs q : p <> q -> Fs.put p data fs !! q = fs !! q.
Proof. intros. rewrite lookup_put. by rewrite decide_False. Qed.

Lemma lookup_put_eq p data fs :
  Fs.put p data fs !! p =
  Some (mkFile data (from_option readable true (fs !! p)) true).
Proof. rewrite lookup_put. by rewrite decide_True. Qed.


Lemma store_Some p data w w' :
  Fs.store p data w = Some w' ->
  Fs.can_store p w = true /\ w' = set_files (Fs.put p data (files w)) w.
Proof. unfold Fs.store. destruct (Fs.can_store p w); [|done]. by intros [= <-]. Qed.

Lemma writeFile_Ok p data w u w' :
  Fs.writeFile p data w = Ok u w' ->
  Fs.can_store p w = true /\
  w' = add_event (EvWrite p data) (set_files (Fs.put p data (files w)) w).
Proof.
  unfold Fs.writeFile. destruct (Fs.store p data w) as [w1|] eqn:H; [|done].
  apply store_Some in H as [? ->]. by intros [= _ <-].
Qed.

Lemma writeFile_Err p data w e w' :
  Fs.writeFile p data w = Err e w' -> w' = w /\ e = FsError "EWRITE" p.
Proof.
  unfold Fs.writeFile. destruct (Fs.store p data w); [done|].
  by intros [= <- <-].
Qed.

(** [fs.unlink(p).catch(() => {})]: afterwards there is no file at [p],
    and nothing else has changed. *)
Lemma unlink_quiet p w :
  exists w', try_catch (Fs.unlink p) (fun _ => ret tt) w = Ok tt w' /\
    files w' = delete p (files w) /\ dirs w' = dirs w /\ rng w' = rng w /\
    log w' = match files w !! p with
             | Some _ => [EvUnlink p]
             | None => []
             end ++ log w.
Proof.
  unfold try_catch, Fs.unlink. destruct (files w !! p) as [f|] eqn:H.
  - eexists. split; [done|]. done.
  - exists w. split; [done|]. split; [|done].
    symmetry. by apply delete_id.
Qed.

End MonadFacts.

(** ** Running [openssl] *)

Section OpensslFacts.
Variable E : Env.

Lemma exec_Ok c w o w' :
  Openssl.exec E c w = Ok o w' <->
  Openssl.run E c (add_event (EvExec c) w) = Some (o, w').
Proof.
  unfold Openssl.exec. destruct (Openssl.run E c _) as [[o1 w1]|]; split;
    try done; by intros [= -> ->].
Qed.

Lemma exec_Err c w e w' :
  Openssl.exec E c w = Err e w' ->
  e = ExecError c /\ w' = add_event (EvExec c) w.
Proof.
  unfold Openssl.exec. destruct (Openssl.run E c _) as [[o1 w1]|]; [done|].
  by intros [= <- <-].
Qed.

Lemma input_Some p w c :
  Openssl.input p w = Some c <->
  exists f, files w !! p = Some f /\ readable f = true /\ content f = c.
Proof.
  unfold Openssl.input. destruct (files w !! p) as [f|]; simpl.
  - destruct (readable f) eqn:Hr; split.
    + intros [= <-]. eauto.
    + by intros (? & [= <-] & _ & <-).
    + done.
    + intros (? & [= <-] & ? & _). congruence.
  - split; [done|]. by intros (? & ? & _).
Qed.

Lemma run_Genrsa out bits w o w' :
  Openssl.run E (Genrsa out bits) w = Some (o, w') ->
  Fs.can_store out w = true /\
  w' = set_files (Fs.put out (ossl_genrsa E bits None (rng w)) (files w))
         (Openssl.tick w).
Proof.
  unfold Openssl.run. destruct (openssl_installed E); [|done]. simpl.
  destruct (Fs.store _ _ _) as [w1|] eqn:H; [|done]. simpl.
  apply store_Some in H as [? ->]. by intros [= _ <-].
Qed.

Lemma run_GenrsaAes256 out pass bits w o w' :
  Openssl.run E (GenrsaAes256 out pass bits) w = Some (o, w') ->
  Fs.can_store out w = true /\
  w' = set_files
         (Fs.put out (ossl_genrsa E bits (Some pass) (rng w)) (files w))
         (Openssl.tick w).
Proof.
  unfold Openssl.run. destruct (openssl_installed E); [|done]. simpl.
  destruct (Fs.store _ _ _) as [w1|] eqn:H; [|done]. simpl.
  apply store_Some in H as [? ->]. by intros [= _ <-].
Qed.

Lemma run_ReqNewX509 days key out pass subj w o w' :
  Openssl.run E (ReqNewX509 days key out pass subj) w = Some (o, w') ->
  exists k cert,
    Openssl.input key w = Some k /\
    ossl_req_x509 E k pass subj days (rng w) = Some cert /\
    Fs.can_store out w = true /\
    w' = set_files (Fs.put out cert (files w)) (Openssl.tick w).
Proof.
  unfold Openssl.run. destruct (openssl_installed E); [|done]. simpl.
  destruct (Openssl.input key w) as [k|]; [|done]. simpl.
  destruct (ossl_req_x509 E k pass subj days (rng w)) as [cert|] eqn:Hc;
    [|done].
  simpl. destruct (Fs.store _ _ _) as [w1|] eqn:H; [|done]. simpl.
  apply store_Some in H as [H ->]. intros [= _ <-]. exists k, cert.
  repeat split; done.
Qed.

Lemma run_ReqNew key out config w o w' :
  Openssl.run E (ReqNew key out config) w = Some (o, w') ->
  exists k cfg csr,
    Openssl.input key w = Some k /\ Openssl.input config w = Some cfg /\
    ossl_req_new E k cfg = Some csr /\
    Fs.can_store out w = true /\
    w' = set_files (Fs.put out csr (files w)) w.
Proof.
  unfold Openssl.run. destruct (openssl_installed E); [|done]. simpl.
  destruct (Openssl.input key w) as [k|]; [|done]. simpl.
  destruct (Openssl.input config w) as [cfg|]; [|done]. simpl.
  destruct (ossl_req_new E k cfg) as [csr|] eqn:Hc; [|done].
  simpl. destruct (Fs.store _ _ _) as [w1|] eqn:H; [|done]. simpl.
  apply store_Some in H as [H ->]. intros [= _ <-]. by exists k, cfg, csr.
Qed.

Lemma run_X509Req csr ca cakey out days extensions extfile pass w o w' :
  Openssl.run E (X509Req csr ca cakey out days extensions extfile pass) w
    = Some (o, w') ->
  exists r cacert cak ext cert serial,
    Openssl.input csr w = Some r /\ Openssl.input ca w = Some cacert /\
    Openssl.input cakey w = Some cak /\ Openssl.input extfile w = Some ext /\
    ossl_x509_req E r cacert cak extensions ext pass days
      (Openssl.input (Openssl.srl_path E ca) w) (rng w) = Some (cert, serial) /\
    Fs.dir_ok out (dirs w) = true /\
    w' = set_files
           (Fs.put out cert (Fs.put (Openssl.srl_path E ca) serial (files w)))
           (Openssl.tick w).
Proof.
  unfold Openssl.run. destruct (openssl_installed E); [|done]. simpl.
  destruct (Openssl.input csr w) as [r|]; [|done]. simpl.
  destruct (Openssl.input ca w) as [cacert|]; [|done]. simpl.
  destruct (Openssl.input cakey w) as [cak|]; [|done]. simpl.
  destruct (Openssl.input extfile w) as [ext|]; [|done]. simpl.
  destruct (ossl_x509_req _ _ _ _ _ _ _ _ _ _) as [[cert serial]|] eqn:Hx;
    [|done]. simpl.
  destruct (Fs.store _ serial _) as [w1|] eqn:H1; [|done]. simpl.
  apply store_Some in H1 as [? ->].
  destruct (Fs.store _ cert _) as [w2|] eqn:H2; [|done]. simpl.
  apply store_Some in H2 as [[H2 _]%andb_true_iff ->]. intros [= _ <-].
  exists r, cacert, cak, ext, cert, serial. repeat split; done.
Qed.

Lemma run_X509Dates cert w o w' :
  Openssl.run E (X509Dates cert) w = Some (o, w') ->
  w' = w /\ exists c, Openssl.input cert w = Some c /\
                      ossl_x509_dates E c = Some o.
Proof.
  unfold Openssl.run. destruct (openssl_installed E); [|done]. simpl.
  destruct (Openssl.input cert w) as [c|]; [|done]. simpl.
  destruct (ossl_x509_dates E c) as [txt|] eqn:Hd; [|done]. simpl.
  intros [= <- <-]. eauto.
Qed.

(** A command changes no file but its outputs. *)
Lemma run_frame c w o w' p :
  Openssl.run E c w = Some (o, w') -> p ∉ Openssl.outputs E c ->
  files w' !! p = files w !! p.
Proof.
  intros H Hp. destruct c; simpl in Hp.
  - unfold Openssl.run in H. destruct (openssl_installed E); [|done].
    simpl in H. by injection H as _ <-.
  - apply run_GenrsaAes256 in H as [_ ->]. simpl.
    apply lookup_put_ne. set_solver.
  - apply run_ReqNewX509 in H as (? & ? & _ & _ & _ & ->). simpl.
    apply lookup_put_ne. set_solver.
  - apply run_Genrsa in H as [_ ->]. simpl. apply lookup_put_ne. set_solver.
  - apply run_ReqNew in H as (? & ? & ? & _ & _ & _ & _ & ->). simpl.
    apply lookup_put_ne. set_solver.
  - apply run_X509Req in H as (? & ? & ? & ? & cert & serial & _ & _ & _ & _
                               & _ & _ & ->). simpl.
    rewrite !lookup_put_ne; set_solver.
  - by apply run_X509Dates in H as [-> _].
Qed.

(** A command leaves the log alone; running it through [exec] adds one
    entry, whether it fails or not. *)
Lemma run_log c w o w' : Openssl.run E c w = Some (o, w') -> log w' = log w.
Proof.
  intros H. destruct c.
  - unfold Openssl.run in H. destruct (openssl_installed E); [|done].
    simpl in H. by injection H as _ <-.
  - by apply run_GenrsaAes256 in H as [_ ->].
  - by apply run_ReqNewX509 in H as (? & ? & _ & _ & _ & ->).
  - by apply run_Genrsa in H as [_ ->].
  - by apply run_ReqNew in H as (? & ? & ? & _ & _ & _ & _ & ->).
  - by apply run_X509Req in H as (? & ? & ? & ? & ? & ? & _ & _ & _ & _ & _ & _
                                  & ->).
  - by apply run_X509Dates in H as [-> _].
Qed.

Lemma exec_log c w : log (world_of (Openssl.exec E c w)) = EvExec c :: log w.
Proof.
  destruct (Openssl.exec E c w) as [o w'|e w'] eqn:H.
  - apply exec_Ok, run_log in H. exact H.
  - by apply exec_Err in H as [_ ->].
Qed.

End OpensslFacts.

(** ** The paths of the generator *)

Section GeneratorPaths.
Import Text.
Variable g : CertificateGenerator.
Variable assetTag : string.

Lemma key_last : last_char (Generator.privateKeyPath_of g assetTag) = Some "m"%char.
Proof. unfold Generator.privateKeyPath_of. by rewrite join_last_char. Qed.

Lemma cert_last : last_char (Generator.certPath_of g assetTag) = Some "m"%char.
Proof. unfold Generator.certPath_of. by rewrite join_last_char. Qed.

Lemma csr_last : last_char (Generator.csrPath_of g assetTag) = Some "r"%char.
Proof. unfold Generator.csrPath_of. by rewrite join_last_char. Qed.

Lemma config_last : last_char (Generator.configPath_of g assetTag) = Some "f"%char.
Proof. unfold Generator.configPath_of. by rewrite join_last_char. Qed.


End GeneratorPaths.

(** ** The authority: [ensureCAExists] *)

Section AuthorityFacts.
Import Text.
Variable E : Env.
Variable g : CertificateGenerator.

Lemma loadCA_Ok r w w' :
  Generator.loadCA g w = Ok r w' <->
  w' = w /\ exists f, files w !! caCertPath g = Some f /\ readable f = true /\
                      r = (content f, false).
Proof.
  unfold Generator.loadCA. rewrite bind_Ok. split.
  - intros (u & w1 & Ha & Hb). apply access_Ok in Ha as [-> _].
    apply bind_Ok in Hb as (c & w2 & Hr & Hret).
    apply readFile_Ok in Hr as (-> & f & Hf & Hrd & <-).
    injection Hret as <- <-. eauto.
  - intros (-> & f & Hf & Hrd & ->). exists tt, w. split.
    + by eapply access_file.
    + apply bind_Ok. exists (content f), w. split; [|done].
      apply readFile_Ok. eauto.
Qed.

Lemma loadCA_world w : world_of (Generator.loadCA g w) = w.
Proof.
  unfold Generator.loadCA, bind.
  pose proof (access_world (caCertPath g) w) as Ha.
  destruct (Fs.access (caCertPath g) w) as [u w1|e w1]; simpl in Ha; subst w1;
    [|done].
  pose proof (readFile_world (caCertPath g) w) as Hr.
  by destruct (Fs.readFile (caCertPath g) w) as [c w1|e w1].
Qed.

(** The [try] block fails exactly when one of its two calls fails. *)
Lemma loadCA_is_ok w :
  is_ok (Generator.loadCA g w) =
  is_ok (Fs.access (caCertPath g) w) && is_ok (Fs.readFile (caCertPath g) w).
Proof.
  unfold Generator.loadCA, bind.
  pose proof (access_world (caCertPath g) w) as Ha.
  destruct (Fs.access (caCertPath g) w) as [u w1|e w1]; simpl in Ha; subst w1;
    [|done].
  by destruct (Fs.readFile (caCertPath g) w) as [c w1|e w1].
Qed.

Lemma ensureCAExists_loaded w r w' :
  Generator.loadCA g w = Ok r w' -> Generator.ensureCAExists E g w = Ok r w'.
Proof. intros H. unfold Generator.ensureCAExists, try_catch. by rewrite H. Qed.

Lemma ensureCAExists_generated w :
  is_ok (Generator.loadCA g w) = false ->
  Generator.ensureCAExists E g w = Generator.generateCA E g w.
Proof.
  intros H. unfold Generator.ensureCAExists, try_catch.
  pose proof (loadCA_world w) as Hw.
  destruct (Generator.loadCA g w) as [r w1|e w1]; [done|].
  simpl in Hw. by subst w1.
Qed.

(** A successful generation: what is on disk and in the log afterwards. *)
Lemma generateCA_Ok w r w' :
  Generator.generateCA E g w = Ok r w' ->
  let caPassword := hex_of_bytes (entropy E <$> seq (rng w) 32) in
  let key := ossl_genrsa E 4096 (Some caPassword) (rng w + 32) in
  exists cert k,
    ossl_req_x509 E k caPassword Generator.ca_subject 3650 (rng w + 33)
      = Some cert /\
    files w' = Fs.put (caPasswordPath g) caPassword
                 (Fs.put (caCertPath g) cert
                    (Fs.put (caKeyPath g) key (files w))) /\
    dirs w' = dirs w /\ rng w' = (rng w + 34)%nat /\
    log w' = [EvWrite (caPasswordPath g) caPassword;
              EvExec (ReqNewX509 3650 (caKeyPath g) (caCertPath g) caPassword
                        Generator.ca_subject);
              EvExec (GenrsaAes256 (caKeyPath g) caPassword 4096)] ++ log w /\
    Fs.readFile (caCertPath g) w' = Ok (fst r) w' /\ snd r = true.
Proof.
  unfold Generator.generateCA. intros H.
  apply bind_Ok in H as (bytes & w1 & Hb & H).
  unfold Crypto.randomBytes in Hb. injection Hb as <- <-.
  apply bind_Ok in H as (o1 & w2 & H1 & H).
  apply exec_Ok, run_GenrsaAes256 in H1 as [_ ->].
  apply bind_Ok in H as (o2 & w3 & H2 & H).
  apply exec_Ok, run_ReqNewX509 in H2 as (k & cert & _ & Hc & _ & ->).
  apply bind_Ok in H as (u & w4 & H3 & H).
  apply writeFile_Ok in H3 as [_ ->].
  apply bind_Ok in H as (c & w5 & H4 & H).
  injection H as <- <-.
  pose proof H4 as H5. apply readFile_Ok in H5 as [-> _].
  exists cert, k. simpl in *.
  replace (S (rng w + 32)) with (rng w + 33)%nat in Hc by lia.
  repeat split; try done. f_equal. lia.
Qed.

(** Whatever happens next, the generation has run the key generation
    over the CA key path. *)
Lemma generateCA_starts w :
  In (EvExec (GenrsaAes256 (caKeyPath g)
                (hex_of_bytes (entropy E <$> seq (rng w) 32)) 4096))
     (log (world_of (Generator.generateCA E g w))).
Proof.
  unfold Generator.generateCA, bind. cbn [Crypto.randomBytes].
  set (pw := hex_of_bytes _).
  set (w0 := mkWorld _ _ _ _).
  pose proof (exec_log E (GenrsaAes256 (caKeyPath g) pw 4096) w0) as H1.
  destruct (Openssl.exec E (GenrsaAes256 _ _ _) w0) as [o1 w1|e1 w1];
    cbn [world_of] in *; [|rewrite H1; apply in_eq].
  pose proof (exec_log E (ReqNewX509 3650 (caKeyPath g) (caCertPath g) pw
                            Generator.ca_subject) w1) as H2.
  destruct (Openssl.exec E (ReqNewX509 _ _ _ _ _) w1) as [o2 w2|e2 w2];
    cbn [world_of] in *; [|rewrite H2, H1; apply in_cons, in_eq].
  destruct (Fs.writeFile (caPasswordPath g) pw w2) as [u w3|e3 w3] eqn:H3;
    cbn [world_of].
  2:{ apply writeFile_Err in H3 as [-> _].
      rewrite H2, H1. apply in_cons, in_eq. }
  apply writeFile_Ok in H3 as [_ ->].
  pose proof (readFile_world (caCertPath g)
                (add_event (EvWrite (caPasswordPath g) pw)
                   (set_files (Fs.put (caPasswordPath g) pw (files w2)) w2)))
    as H4.
  destruct (Fs.readFile (caCertPath g) _) as [c w4|e4 w4];
    cbn [world_of ret] in *; subst w4; cbn [log add_event set_files];
    rewrite H2, H1; do 2 apply in_cons; apply in_eq.
Qed.

End AuthorityFacts.

Section AuthorityClaims.
Import Text.
Variable E : Env.
Variable g : CertificateGenerator.

(** Once a call has succeeded, the certificate can be loaded. *)
Lemma ensureCAExists_then_loads w c isNew w1 :
  Generator.ensureCAExists E g w = Ok (c, isNew) w1 ->
  Generator.loadCA g w1 = Ok (c, false) w1.
Proof.
  intros H. apply loadCA_Ok. split; [done|].
  destruct (Generator.loadCA g w) as [r w'|e w'] eqn:Hl.
  - rewrite (ensureCAExists_loaded E g _ _ _ Hl) in H. injection H as -> ->.
    apply loadCA_Ok in Hl as (-> & f & Hf & Hr & [= -> ->]). eauto.
  - rewrite ensureCAExists_generated in H by by rewrite Hl.
    apply generateCA_Ok in H as (_ & _ & _ & _ & _ & _ & _ & Hr & _).
    simpl in Hr. apply readFile_Ok in Hr as (_ & f & Hf & Hr & <-). eauto.
Qed.

(** C1. After a successful call of [ensureCAExists], every further call
    returns the same certificate content with [isNew = false] and leaves
    the world as it is: no file is written, removed or created, no command
    is run, no randomness is drawn and the log of effects does not grow.
    This holds for the next call, for any number of calls in a row, and in
    every later state in which the CA certificate file is still what the
    first call left. *)
Theorem ensureCAExists_idempotent w c isNew w1 :
  Generator.ensureCAExists E g w = Ok (c, isNew) w1 ->
  Generator.ensureCAExists E g w1 = Ok (c, false) w1 /\
  (forall n, repeatedly (Generator.ensureCAExists E g) n w1
             = repeat (Ok (c, false) w1) n) /\
  (forall w2, files w2 !! caCertPath g = files w1 !! caCertPath g ->
              Generator.ensureCAExists E g w2 = Ok (c, false) w2).
Proof.
  intros H. apply ensureCAExists_then_loads in H.
  pose proof (ensureCAExists_loaded E g _ _ _ H) as H2.
  split; [done|]. split.
  - induction n as [|n IH]; [done|].
    simpl. rewrite H2. simpl. by rewrite IH.
  - intros w2 Hsame. apply ensureCAExists_loaded, loadCA_Ok.
    apply loadCA_Ok in H as (_ & f & Hf & Hr & Hc).
    split; [done|]. exists f. by rewrite Hsame.
Qed.

(** C9. Whenever [fs.access] or [fs.readFile] fails on the CA certificate
    path, for whatever reason (the file may well exist and be unreadable),
    [ensureCAExists] runs the generation branch: it draws a fresh 32-byte
    passphrase and runs the key generation over the CA key path, whatever
    comes of the rest; and when the branch completes, the key, the
    certificate and the passphrase have been written at the CA paths, the
    three effects are in the log, and the call reports [isNew = true]. *)
Theorem ensureCAExists_read_failure_regenerates w :
  is_ok (Fs.access (caCertPath g) w) = false \/
  is_ok (Fs.readFile (caCertPath g) w) = false ->
  let caPassword := hex_of_bytes (entropy E <$> seq (rng w) 32) in
  let key := ossl_genrsa E 4096 (Some caPassword) (rng w + 32) in
  Generator.ensureCAExists E g w = Generator.generateCA E g w /\
  In (EvExec (GenrsaAes256 (caKeyPath g) caPassword 4096))
     (log (world_of (Generator.ensureCAExists E g w))) /\
  forall c isNew w',
    Generator.ensureCAExists E g w = Ok (c, isNew) w' ->
    isNew = true /\
    exists cert,
      files w' = Fs.put (caPasswordPath g) caPassword
                   (Fs.put (caCertPath g) cert
                      (Fs.put (caKeyPath g) key (files w))) /\
      log w' = [EvWrite (caPasswordPath g) caPassword;
                EvExec (ReqNewX509 3650 (caKeyPath g) (caCertPath g)
                          caPassword Generator.ca_subject);
                EvExec (GenrsaAes256 (caKeyPath g) caPassword 4096)] ++ log w.
Proof.
  intros Hfail caPassword key.
  assert (is_ok (Generator.loadCA g w) = false) as Hl.
  { rewrite loadCA_is_ok. destruct Hfail as [-> | ->]; [done|].
    by rewrite andb_false_r. }
  pose proof (ensureCAExists_generated E g w Hl) as Heq.
  split; [done|]. split; [rewrite Heq; apply generateCA_starts|].
  intros c isNew w' H. rewrite Heq in H.
  apply generateCA_Ok in H as (cert & k & _ & Hf & _ & _ & Hlog & _ & Hn).
  simpl in Hn. split; [done|]. exists cert. done.
Qed.

End AuthorityClaims.

(** ** Issuance: [generateDeviceCertificate] *)

(** Paths that end in different characters are different. *)
Ltac world_simpl :=
  cbn [files dirs rng log add_event set_files Openssl.tick content
       readable writable] in *.

Ltac ne_by_last :=
  let Heq := fresh "Heq" in
  intros Heq; apply (f_equal Text.last_char) in Heq;
  rewrite ?key_last, ?cert_last, ?csr_last, ?config_last in Heq;
  try discriminate Heq.

Section IssuanceFacts.
Import Text.
Variable E : Env.
Variable g : CertificateGenerator.
Variable assetTag hubId : string.
Variable equipmentId : Z.

Local Abbreviation keyP := (Generator.privateKeyPath_of g assetTag).
Local Abbreviation certP := (Generator.certPath_of g assetTag).
Local Abbreviation csrP := (Generator.csrPath_of g assetTag).
Local Abbreviation cfgP := (Generator.configPath_of g assetTag).

Lemma randomBytes_Ok n w bytes w' :
  Crypto.randomBytes E n w = Ok bytes w' ->
  bytes = entropy E <$> seq (rng w) n /\
  w' = mkWorld (files w) (dirs w) (rng w + n)%nat (log w).
Proof. unfold Crypto.randomBytes. by intros [= <- <-]. Qed.

Lemma randomUUID_Ok w d w' :
  Crypto.randomUUID E w = Ok d w' ->
  d = uuid_v4 (Byte.to_N <$> (entropy E <$> seq (rng w) 16)) /\
  w' = mkWorld (files w) (dirs w) (rng w + 16)%nat (log w).
Proof.
  unfold Crypto.randomUUID. intros (b & w0 & [-> ->]%randomBytes_Ok & H)%bind_Ok.
  unfold ret in H. by injection H as <- <-.
Qed.

Lemma input_content p w c f :
  Openssl.input p w = Some c -> files w !! p = Some f -> c = content f.
Proof. intros (f' & Hl & _ & <-)%input_Some. congruence. Qed.

(** A successful run up to the fingerprint: the files written, the
    commands run and the values handed to the tools, in full. *)
Lemma issueDeviceCertificate_Ok w info w' d cfg key :
  d = uuid_v4 (Byte.to_N <$> (entropy E <$> seq (rng w) 16)) ->
  cfg = trim (Generator.opensslConfig d assetTag hubId equipmentId) ->
  key = ossl_genrsa E 2048 None (rng w + 16) ->
  Generator.issueDeviceCertificate E g assetTag hubId equipmentId w
    = Ok info w' ->
  exists csr cert serial pw cacert cak oldsrl,
    ossl_req_new E key cfg = Some csr /\
    ossl_x509_req E csr cacert cak "v3_req" cfg (trim pw) 3650 oldsrl
      (rng w + 17) = Some (cert, serial) /\
    files w' = Fs.put certP cert
                 (Fs.put (Openssl.srl_path E (caCertPath g)) serial
                    (Fs.put csrP csr
                       (Fs.put keyP key (Fs.put cfgP cfg (files w))))) /\
    dirs w' = dirs w /\ rng w' = (rng w + 18)%nat /\
    log w' = [EvExec (X509Req csrP (caCertPath g) (caKeyPath g) certP 3650
                        "v3_req" cfgP (trim pw));
              EvExec (ReqNew keyP csrP cfgP);
              EvExec (Genrsa keyP 2048);
              EvWrite cfgP cfg] ++ log w /\
    info = mkCertificateInfo d equipmentId (sha256_hex E cert) certP keyP /\
    Fs.dir_ok keyP (dirs w) = true /\ Fs.dir_ok certP (dirs w) = true.
Proof.
  intros Hd Hcfg Hkey H. unfold Generator.issueDeviceCertificate in H.
  apply bind_Ok in H as (d' & w1 & [-> ->]%randomUUID_Ok & H).
  rewrite <- Hd, <- Hcfg in H. clear Hd Hcfg.
  apply bind_Ok in H as (u & w2 & H1 & H).
  apply writeFile_Ok in H1 as [_ ->].
  apply bind_Ok in H as (o1 & w3 & H2 & H).
  apply exec_Ok, run_Genrsa in H2 as [[Hdk _]%andb_true_iff ->].
  apply bind_Ok in H as (o2 & w4 & H3 & H).
  apply exec_Ok, run_ReqNew in H3 as (k & cf & csr & Hk & Hcf & Hcsr & _ & ->).
  apply bind_Ok in H as (pw & w5 & H4 & H).
  apply readFile_Ok in H4 as [-> _].
  apply bind_Ok in H as (o3 & w6 & H5 & H).
  apply exec_Ok, run_X509Req in H5
    as (r & cacert & cak & ext & cert & serial & Hr & _ & _ & Hext & Hx & Hdc
        & ->).
  apply bind_Ok in H as (c & w7 & H6 & H).
  apply readFile_Ok in H6 as (-> & f & Hf & _ & <-).
  unfold ret in H. injection H as <- <-. world_simpl.
  rewrite <- Hkey in *. clear Hkey.
  eapply input_content in Hk; [|world_simpl; apply lookup_put_eq].
  eapply input_content in Hcf;
    [|world_simpl; rewrite lookup_put_ne by ne_by_last; apply lookup_put_eq].
  eapply input_content in Hr; [|world_simpl; apply lookup_put_eq].
  eapply input_content in Hext;
    [|world_simpl; rewrite !lookup_put_ne by ne_by_last; apply lookup_put_eq].
  world_simpl. subst k cf r ext.
  rewrite lookup_put_eq in Hf. injection Hf as <-. world_simpl.
  replace (S (rng w + 16)) with (rng w + 17)%nat in Hx by lia.
  eexists csr, cert, serial, pw, cacert, cak, _.
  repeat split; try done. lia.
Qed.

End IssuanceFacts.

Section AuthorityPaths.
Import Text.
Variable baseDir : string.





End AuthorityPaths.


Section CleanupFacts.
Import Text.
Variable E : Env.
Variable g : CertificateGenerator.
Variable assetTag : string.

Local Abbreviation keyP := (Generator.privateKeyPath_of g assetTag).
Local Abbreviation certP := (Generator.certPath_of g assetTag).
Local Abbreviation csrP := (Generator.csrPath_of g assetTag).
Local Abbreviation cfgP := (Generator.configPath_of g assetTag).

(** The cleanup never fails; it removes the request and the configuration
    file and nothing else. *)
Lemma cleanupTemporaryFiles_Ok w :
  exists w', Generator.cleanupTemporaryFiles g assetTag w = Ok tt w' /\
    files w' = delete cfgP (delete csrP (files w)) /\
    dirs w' = dirs w /\ rng w' = rng w /\
    log w' = match files w !! cfgP with Some _ => [EvUnlink cfgP] | None => [] end
             ++ match files w !! csrP with Some _ => [EvUnlink csrP] | None => [] end
             ++ log w.
Proof.
  unfold Generator.cleanupTemporaryFiles.
  destruct (unlink_quiet csrP w) as (w1 & H1 & Hf1 & Hd1 & Hr1 & Hl1).
  destruct (unlink_quiet cfgP w1) as (w2 & H2 & Hf2 & Hd2 & Hr2 & Hl2).
  exists w2. split.
  - apply bind_Ok. eauto.
  - rewrite Hf2, Hd2, Hr2, Hl2, Hf1, Hd1, Hr1, Hl1.
    rewrite lookup_delete_ne by ne_by_last. done.
Qed.

Lemma generateDeviceCertificate_split hubId equipmentId w info w' :
  Generator.generateDeviceCertificate E g assetTag hubId equipmentId w
    = Ok info w' <->
  exists wmid,
    Generator.issueDeviceCertificate E g assetTag hubId equipmentId w
      = Ok info wmid /\
    Generator.cleanupTemporaryFiles g assetTag wmid = Ok tt w'.
Proof.
  unfold Generator.generateDeviceCertificate. rewrite bind_Ok. split.
  - intros (i & wmid & Hi & (u & w2 & Hc & Hr)%bind_Ok).
    unfold ret in Hr. injection Hr as -> ->. destruct u. eauto.
  - intros (wmid & Hi & Hc). exists info, wmid. split; [done|].
    apply bind_Ok. eauto.
Qed.

End CleanupFacts.

Section IssuanceClaims.
Import Text.
Variable E : Env.
Variable baseDir : string.
Variable assetTag : string.

Local Abbreviation g := (Generator.new baseDir).
Local Abbreviation keyP := (Generator.privateKeyPath_of g assetTag).
Local Abbreviation certP := (Generator.certPath_of g assetTag).
Local Abbreviation csrP := (Generator.csrPath_of g assetTag).
Local Abbreviation cfgP := (Generator.configPath_of g assetTag).


End IssuanceClaims.

Section OutputClaims.
Import Text.
Variable E : Env.
Variable g : CertificateGenerator.
Variable assetTag : string.

Local Abbreviation keyP := (Generator.privateKeyPath_of g assetTag).
Local Abbreviation certP := (Generator.certPath_of g assetTag).
Local Abbreviation csrP := (Generator.csrPath_of g assetTag).
Local Abbreviation cfgP := (Generator.configPath_of g assetTag).



End OutputClaims.

Section NothingRemoved.
Variable E : Env.













End NothingRemoved.

Section FailureClaims.
Import Text.
Variable E : Env.
Variable baseDir : string.
Variable assetTag hubId : string.
Variable equipmentId : Z.

Local Abbreviation g := (Generator.new baseDir).
Local Abbreviation keyP := (Generator.privateKeyPath_of g assetTag).
Local Abbreviation certP := (Generator.certPath_of g assetTag).
Local Abbreviation csrP := (Generator.csrPath_of g assetTag).
Local Abbreviation cfgP := (Generator.configPath_of g assetTag).


Lemma readFile_is_ok p w :
  is_ok (Fs.readFile p w)
  = match files w !! p with Some f => readable f | None => false end.
Proof.
  unfold Fs.readFile. destruct (files w !! p) as [f|].
  - by destruct (readable f).
  - by case_bool_decide.
Qed.




End FailureClaims.

(** ** The subject alternative names *)

Section ConfigFacts.
Import Text.





























End ConfigFacts.

Section SanClaims.
Import Text.
Variable E : Env.
Variable g : CertificateGenerator.
Variable assetTag hubId : string.
Variable equipmentId : Z.


End SanClaims.

Section InfoClaims.
Import Text.
Variable E : Env.
Variable g : CertificateGenerator.


End InfoClaims.

Section RegistrarClaims.
Variable Db : Type.
Variable insert : TrustedCA -> Db -> Db * option PostgrestError.
Variable iso_string : Z -> string.

(** C6. With valid dates, [uploadCAToDatabase] returns normally exactly
    when the datastore reports no error or reports the duplicate error
    (code 23505); on that duplicate error it returns although the datastore
    failed; on any other datastore error it throws
    [Failed to upload CA: <message>].  With an invalid date it throws
    before the datastore is asked.  In no other case is an error dropped. *)
Theorem uploadCAToDatabase_errors cert fp (nb na : Z) db :
  let row := {| name := "Poem Booth Root CA"; certificate := cert;
                ca_row_fingerprint := fp; valid_from := iso_string nb;
                valid_until := iso_string na; is_active := true |} in
  let r := Registrar.uploadCAToDatabase Db insert iso_string cert fp
             (Some nb) (Some na) db in
  fst r = fst (insert row db) /\
  (snd r = Returned <->
   snd (insert row db) = None \/
   exists e, snd (insert row db) = Some e /\ code e = "23505") /\
  (forall e, snd (insert row db) = Some e -> code e = "23505" ->
             snd r = Returned) /\
  (forall e, snd (insert row db) = Some e -> code e <> "23505" ->
             snd r = Thrown ("Failed to upload CA: " +:+ message e)) /\
  (forall d d',
     snd (Registrar.uploadCAToDatabase Db insert iso_string cert fp None d db)
       = Thrown "Invalid time value" /\
     snd (Registrar.uploadCAToDatabase Db insert iso_string cert fp d' None db)
       = Thrown "Invalid time value").
Proof.
  intros row r. subst r. unfold Registrar.uploadCAToDatabase. simpl.
  fold row. destruct (insert row db) as [db' [e|]]; simpl.
  - case_bool_decide as Hc; simpl.
    + split; [done|]. split; [|split; [done|split]].
      * split; [eauto|done].
      * intros e' [= <-] Hne. done.
      * intros d d'. by destruct d'.
    + split; [done|]. split; [|split; [|split]].
      * split; [done|]. intros [[=]|(e' & [= <-] & He)]. done.
      * intros e' [= <-] He. done.
      * by intros e' [= <-] _.
      * intros d d'. by destruct d'.
  - split; [done|]. split; [|split; [done|split; [done|]]].
    + split; [auto|done].
    + intros d d'. by destruct d'.
Qed.

End RegistrarClaims.

Section EntropyFacts.
Import Text.
Variable E : Env.
Variable g : CertificateGenerator.

(** The device identifier of a call is the UUID made from the next sixteen
    bytes of the random stream: the caller has no say in it. *)
Lemma generateDeviceCertificate_deviceId assetTag hubId equipmentId w info w' :
  Generator.generateDeviceCertificate E g assetTag hubId equipmentId w
    = Ok info w' ->
  deviceId info = uuid_v4 (Byte.to_N <$> (entropy E <$> seq (rng w) 16)) /\
  rng w' = (rng w + 18)%nat.
Proof.
  intros H. apply generateDeviceCertificate_split in H as (wmid & Hi & Hc).
  destruct (cleanupTemporaryFiles_Ok g assetTag wmid)
    as (w2 & Hc2 & _ & _ & Hr & _).
  rewrite Hc in Hc2. injection Hc2 as <-.
  eapply issueDeviceCertificate_Ok in Hi; [|done..].
  destruct Hi as (? & ? & ? & ? & ? & ? & ? & _ & _ & _ & _ & Hrng & _ & -> & _).
  by rewrite Hr, Hrng.
Qed.

End EntropyFacts.

(** * Further facts: what the rest of the code shows *)

(** ** Paths by their segments: facts *)

Section SegmentFacts.
Import Text.
Import Path.



































End SegmentFacts.

(** ** What a call can change *)

Section Footprints.
Variable E : Env.

Lemma touches_only_refl ps w : touches_only ps w w.
Proof. by split. Qed.

Lemma touches_only_eq ps w w' :
  files w' = files w -> dirs w' = dirs w -> touches_only ps w w'.
Proof. intros Hf Hd. split; [done|]. intros p _. by rewrite Hf. Qed.

Lemma touches_only_trans ps w1 w2 w3 :
  touches_only ps w1 w2 -> touches_only ps w2 w3 -> touches_only ps w1 w3.
Proof.
  intros [Hd1 Hf1] [Hd2 Hf2]. split; [congruence|].
  intros p Hp. by rewrite Hf2, Hf1.
Qed.

Lemma touches_only_mono ps qs w w' :
  ps ⊆ qs -> touches_only ps w w' -> touches_only qs w w'.
Proof.
  intros Hsub [Hd Hf]. split; [done|]. intros p Hp. apply Hf.
  intros Hin. by apply Hp, Hsub.
Qed.

Lemma bind_touches {A B} ps (m : M A) (k : A -> M B) :
  (forall w, touches_only ps w (world_of (m w))) ->
  (forall a w, touches_only ps w (world_of (k a w))) ->
  forall w, touches_only ps w (world_of (bind m k w)).
Proof.
  intros Hm Hk w. unfold bind. specialize (Hm w).
  destruct (m w) as [a w1|e w1]; [|done].
  eapply touches_only_trans; [exact Hm|apply Hk].
Qed.

Lemma try_catch_touches {A} ps (m : M A) (h : Error -> M A) :
  (forall w, touches_only ps w (world_of (m w))) ->
  (forall e w, touches_only ps w (world_of (h e w))) ->
  forall w, touches_only ps w (world_of (try_catch m h w)).
Proof.
  intros Hm Hh w. unfold try_catch. specialize (Hm w).
  destruct (m w) as [a w1|e w1]; [done|].
  eapply touches_only_trans; [exact Hm|apply Hh].
Qed.

Lemma ret_touches {A} ps (a : A) w : touches_only ps w (world_of (ret a w)).
Proof. apply touches_only_refl. Qed.

Lemma access_touches ps p w : touches_only ps w (world_of (Fs.access p w)).
Proof. rewrite access_world. apply touches_only_refl. Qed.

Lemma readFile_touches ps p w :
  touches_only ps w (world_of (Fs.readFile p w)).
Proof. rewrite readFile_world. apply touches_only_refl. Qed.

Lemma writeFile_touches ps p data :
  p ∈ ps -> forall w, touches_only ps w (world_of (Fs.writeFile p data w)).
Proof.
  intros Hp w. destruct (Fs.writeFile p data w) as [u w'|e w'] eqn:H.
  - apply writeFile_Ok in H as [_ ->]. split; [done|].
    intros q Hq. simpl. apply lookup_put_ne. by intros ->.
  - apply writeFile_Err in H as [-> _]. apply touches_only_refl.
Qed.


Lemma randomBytes_touches ps n w :
  touches_only ps w (world_of (Crypto.randomBytes E n w)).
Proof. by apply touches_only_eq. Qed.


Lemma run_dirs c w o w' : Openssl.run E c w = Some (o, w') -> dirs w' = dirs w.
Proof.
  intros H. destruct c.
  - unfold Openssl.run in H. destruct (openssl_installed E); [|done].
    simpl in H. by injection H as _ <-.
  - by apply run_GenrsaAes256 in H as [_ ->].
  - by apply run_ReqNewX509 in H as (? & ? & _ & _ & _ & ->).
  - by apply run_Genrsa in H as [_ ->].
  - by apply run_ReqNew in H as (? & ? & ? & _ & _ & _ & _ & ->).
  - by apply run_X509Req in H as (? & ? & ? & ? & ? & ? & _ & _ & _ & _ & _ & _
                                  & ->).
  - by apply run_X509Dates in H as [-> _].
Qed.

Lemma exec_touches ps c :
  Openssl.outputs E c ⊆ ps ->
  forall w, touches_only ps w (world_of (Openssl.exec E c w)).
Proof.
  intros Hsub w. destruct (Openssl.exec E c w) as [o w'|e w'] eqn:H.
  - apply exec_Ok in H. split.
    + by apply run_dirs in H.
    + intros p Hp. apply (run_frame E c _ o w' p) in H; [done|].
      intros Hin. by apply Hp, Hsub.
  - apply exec_Err in H as [_ ->]. by apply touches_only_eq.
Qed.

Lemma mkdir_p_files p w : files (world_of (Fs.mkdir_p p w)) = files w.
Proof. unfold Fs.mkdir_p. by case_bool_decide. Qed.

End Footprints.

(** ** The footprint of the generator's methods *)

Ltac in_paths :=
  first [ apply list_elem_of_In; simpl; tauto
        | cbn [Openssl.outputs]; intros ? ?%list_elem_of_In;
          apply list_elem_of_In; simpl in *; tauto ].

Section GeneratorFootprints.
Variable E : Env.
Variable g : CertificateGenerator.

Lemma loadCA_touches ps w : touches_only ps w (world_of (Generator.loadCA g w)).
Proof. rewrite loadCA_world. apply touches_only_refl. Qed.

Lemma generateCA_touches w :
  touches_only (ca_files g) w (world_of (Generator.generateCA E g w)).
Proof.
  unfold Generator.generateCA, ca_files.
  apply bind_touches; [apply randomBytes_touches|]. intros bytes w1.
  apply bind_touches; [apply exec_touches; in_paths|]. intros _ w2.
  apply bind_touches; [apply exec_touches; in_paths|]. intros _ w3.
  apply bind_touches; [apply writeFile_touches; in_paths|]. intros _ w4.
  apply bind_touches; [apply readFile_touches|]. intros c w5.
  apply ret_touches.
Qed.

Lemma ensureCAExists_touches w :
  touches_only (ca_files g) w (world_of (Generator.ensureCAExists E g w)).
Proof.
  unfold Generator.ensureCAExists.
  apply try_catch_touches; [apply loadCA_touches|].
  intros _ w1. apply generateCA_touches.
Qed.




Lemma getCAInfo_touches w :
  touches_only [] w (world_of (Generator.getCAInfo E g w)).
Proof.
  unfold Generator.getCAInfo.
  apply bind_touches; [apply readFile_touches|]. intros c w1.
  apply bind_touches; [apply exec_touches; in_paths|]. intros o w2.
  apply ret_touches.
Qed.

End GeneratorFootprints.

(** ** Where the generator keeps its files *)

Section Layout.
Import Text.
Import Path.
Variable baseDir : string.

Local Abbreviation g := (Generator.new baseDir).







End Layout.

Section Traversal.
Import Text.
Import Path.
Variable E : Env.
Variable baseDir : string.

Local Abbreviation g := (Generator.new baseDir).


End Traversal.

(** ** What the generator leaves alone *)

Section FootprintClaims.
Import Text.
Import Path.
Variable E : Env.
Variable baseDir : string.

Local Abbreviation g := (Generator.new baseDir).



(** X5: whether it finds the authority, generates it or fails,
    [ensureCAExists] changes no directory and no file other than the key,
    the certificate and the passphrase of the authority; where it finds
    the certificate it changes nothing at all. *)
Theorem ensureCAExists_footprint w :
  let r := Generator.ensureCAExists E g w in
  dirs (world_of r) = dirs w /\
  (forall p, p ∉ [caKeyPath g; caCertPath g; caPasswordPath g] ->
             files (world_of r) !! p = files w !! p) /\
  (forall c w', r = Ok (c, false) w' -> w' = w) /\
  (is_ok (Generator.loadCA g w) = true -> world_of r = w).
Proof.
  intros r. destruct (ensureCAExists_touches E g w) as [Hd Hf].
  split; [done|]. split; [exact Hf|]. split.
  - intros c w' H. subst r.
    destruct (Generator.loadCA g w) as [x w1|e w1] eqn:Hl.
    + rewrite (ensureCAExists_loaded E g _ _ _ Hl) in H.
      apply loadCA_Ok in Hl as [-> _]. by injection H.
    + rewrite ensureCAExists_generated in H by by rewrite Hl.
      by apply generateCA_Ok in H as (_ & _ & _ & _ & _ & _ & _ & _ & ?).
  - intros Hok. subst r.
    destruct (Generator.loadCA g w) as [x w1|e w1] eqn:Hl; [|done].
    rewrite (ensureCAExists_loaded E g _ _ _ Hl).
    by apply loadCA_Ok in Hl as [-> _].
Qed.

End FootprintClaims.

(** ** The prerequisites: [validatePrerequisites] *)

Section PrerequisiteFacts.
Variable E : Env.

Lemma exec_version w :
  Openssl.exec E OsslVersion w
  = if openssl_installed E
    then Ok "OpenSSL" (add_event (EvExec OsslVersion) w)
    else Err (ExecError OsslVersion) (add_event (EvExec OsslVersion) w).
Proof. unfold Openssl.exec, Openssl.run. by destruct (openssl_installed E). Qed.

Lemma ancestors_self fuel p : p ∈ Fs.ancestors fuel p.
Proof.
  destruct fuel; simpl; [apply list_elem_of_here|].
  case_bool_decide; apply list_elem_of_here.
Qed.

Lemma mkdir_p_Ok p w u w' :
  Fs.mkdir_p p w = Ok u w' ->
  Forall (fun d => files w !! d = None) (Fs.ancestors (String.length p) p) /\
  w' = add_event (EvMkdir p)
         (mkWorld (files w)
            (list_to_set (Fs.ancestors (String.length p) p) ∪ dirs w)
            (rng w) (log w)).
Proof.
  unfold Fs.mkdir_p. case_bool_decide as Hex; [done|].
  intros [= <- <-]. split; [|done].
  apply Forall_forall. intros d Hd.
  destruct (files w !! d) as [f|] eqn:Hf; [|done].
  exfalso. apply Hex, Exists_exists. exists d. by rewrite Hf.
Qed.


Lemma mkdir_p_clear p w :
  Forall (fun d => files w !! d = None) (Fs.ancestors (String.length p) p) ->
  Fs.mkdir_p p w
  = Ok tt (add_event (EvMkdir p)
             (mkWorld (files w)
                (list_to_set (Fs.ancestors (String.length p) p) ∪ dirs w)
                (rng w) (log w))).
Proof.
  intros Hall. unfold Fs.mkdir_p. case_bool_decide as Hex; [|done].
  apply Exists_exists in Hex as (d & Hd & Hs).
  rewrite Forall_forall in Hall. rewrite (Hall d Hd) in Hs.
  by destruct Hs.
Qed.

Variable g : CertificateGenerator.

Lemma validatePrerequisites_run w :
  Generator.validatePrerequisites E g w
  = if openssl_installed E
    then (run! Fs.mkdir_p (caDir g) in Fs.mkdir_p (certsDir g))
           (add_event (EvExec OsslVersion) w)
    else Err (JsError "OpenSSL not found. Please install OpenSSL.")
           (add_event (EvExec OsslVersion) w).
Proof.
  unfold Generator.validatePrerequisites, bind at 1, try_catch, bind at 1.
  rewrite exec_version. by destruct (openssl_installed E).
Qed.

Lemma validatePrerequisites_Ok w u w' :
  Generator.validatePrerequisites E g w = Ok u w' ->
  openssl_installed E = true /\
  Forall (fun d => files w !! d = None)
    (Fs.ancestors (String.length (caDir g)) (caDir g)) /\
  Forall (fun d => files w !! d = None)
    (Fs.ancestors (String.length (certsDir g)) (certsDir g)) /\
  files w' = files w /\ rng w' = rng w /\
  dirs w' = list_to_set (Fs.ancestors (String.length (certsDir g)) (certsDir g))
            ∪ (list_to_set (Fs.ancestors (String.length (caDir g)) (caDir g))
               ∪ dirs w) /\
  log w' = [EvMkdir (certsDir g); EvMkdir (caDir g); EvExec OsslVersion]
           ++ log w.
Proof.
  rewrite validatePrerequisites_run.
  destruct (openssl_installed E); [|done]. intros H.
  apply bind_Ok in H as (u1 & w1 & H1 & H2).
  apply mkdir_p_Ok in H1 as [Hc1 ->]. apply mkdir_p_Ok in H2 as [Hc2 ->].
  done.
Qed.

End PrerequisiteFacts.

Section PrerequisiteClaims.
Import Text.
Variable E : Env.
Variable baseDir : string.

Local Abbreviation g := (Generator.new baseDir).


(** X7: when [validatePrerequisites] returns, [openssl] is there, [ca] and
    [device-certs] are directories, every directory that existed still
    exists, no file is changed and no randomness is drawn; calling it again
    succeeds and changes neither files nor directories. *)
Theorem validatePrerequisites_creates_directories w u w' :
  Generator.validatePrerequisites E g w = Ok u w' ->
  openssl_installed E = true /\
  Path.join baseDir "ca" ∈ dirs w' /\
  Path.join baseDir "device-certs" ∈ dirs w' /\
  dirs w ⊆ dirs w' /\ files w' = files w /\ rng w' = rng w /\
  exists w'',
    Generator.validatePrerequisites E g w' = Ok tt w'' /\
    dirs w'' = dirs w' /\ files w'' = files w'.
Proof.
  intros H.
  apply validatePrerequisites_Ok in H as (Hi & Hc1 & Hc2 & Hf & Hr & Hd & Hl).
  split; [done|].
  split; [rewrite Hd; apply elem_of_union_r, elem_of_union_l,
            elem_of_list_to_set, ancestors_self|].
  split; [rewrite Hd; apply elem_of_union_l, elem_of_list_to_set,
            ancestors_self|].
  split; [rewrite Hd; intros d ?; by do 2 apply elem_of_union_r|].
  split; [done|]. split; [done|].
  rewrite validatePrerequisites_run, Hi. unfold bind.
  rewrite mkdir_p_clear by by cbn [files add_event]; rewrite Hf.
  rewrite mkdir_p_clear by by cbn [files add_event]; rewrite Hf.
  eexists. split; [done|]. cbn [dirs files add_event].
  split; [|done]. rewrite Hd. apply set_eq. intros d.
  rewrite !elem_of_union. tauto.
Qed.


End PrerequisiteClaims.

(** ** The passphrase of the authority *)

Section PassphraseFacts.
Import Text.







End PassphraseFacts.

Section IssuanceReads.
Import Text.
Variable E : Env.
Variable baseDir : string.
Variable assetTag hubId : string.
Variable equipmentId : Z.

Local Abbreviation g := (Generator.new baseDir).
Local Abbreviation keyP := (Generator.privateKeyPath_of g assetTag).
Local Abbreviation certP := (Generator.certPath_of g assetTag).
Local Abbreviation csrP := (Generator.csrPath_of g assetTag).
Local Abbreviation cfgP := (Generator.configPath_of g assetTag).


End IssuanceReads.

Section PassphraseClaims.
Import Text.
Variable E : Env.
Variable baseDir : string.

Local Abbreviation g := (Generator.new baseDir).


(** X10: [isNew] tells the truth about the call that returns it: it is
    [false] exactly when the CA certificate could be read beforehand, and
    then nothing has changed; it is [true] exactly when the call has
    generated the authority, which takes 34 steps of the random stream. *)
Theorem ensureCAExists_isNew w c isNew w1 :
  Generator.ensureCAExists E g w = Ok (c, isNew) w1 ->
  (isNew = false <-> is_ok (Fs.readFile (caCertPath g) w) = true) /\
  (isNew = false -> w1 = w /\ Fs.readFile (caCertPath g) w = Ok c w) /\
  (isNew = true ->
   rng w1 = (rng w + 34)%nat /\
   Generator.generateCA E g w = Ok (c, true) w1).
Proof.
  intros H.
  destruct (Generator.loadCA g w) as [x w0|e w0] eqn:Hl.
  - rewrite (ensureCAExists_loaded E g _ _ _ Hl) in H.
    apply loadCA_Ok in Hl as (-> & f & Hf & Hr & ->).
    injection H as <- <- <-.
    assert (Fs.readFile (caCertPath g) w = Ok (content f) w) as Hread
      by (apply readFile_Ok; eauto).
    split; [by rewrite Hread|]. split; [done|]. done.
  - assert (is_ok (Generator.loadCA g w) = false) as Hno by by rewrite Hl.
    rewrite ensureCAExists_generated in H by done.
    pose proof H as Hg.
    apply generateCA_Ok in H as (_ & _ & _ & _ & _ & Hrng & _ & _ & Hn).
    cbn [snd] in Hn. subst isNew. split; [|split; [done|done]].
    split; [done|]. intros Hread. exfalso.
    rewrite loadCA_is_ok, Hread, andb_true_r in Hno.
    rewrite readFile_is_ok in Hread. unfold Fs.access in Hno.
    destruct (files w !! caCertPath g) as [f|]; [|done].
    by rewrite bool_decide_eq_true_2 in Hno.
Qed.

(** X11: once [ensureCAExists] has returned, the readers agree with it:
    [readCACertificate] returns the same content from the path that
    [getCAPath] names, the fingerprint that [getCAInfo] reports is the
    SHA-256 of that content, and [getCAInfo] can only fail in its
    [openssl] command. *)
Theorem ca_readers_agree w c isNew w1 :
  Generator.ensureCAExists E g w = Ok (c, isNew) w1 ->
  Generator.readCACertificate g w1 = Ok c w1 /\
  Fs.readFile (Generator.getCAPath g) w1 = Ok c w1 /\
  (forall info w2,
     Generator.getCAInfo E g w1 = Ok info w2 ->
     ca_fingerprint info = sha256_hex E c /\
     w2 = add_event (EvExec (X509Dates (caCertPath g))) w1) /\
  (forall e w2,
     Generator.getCAInfo E g w1 = Err e w2 ->
     e = ExecError (X509Dates (caCertPath g)) /\
     w2 = add_event (EvExec (X509Dates (caCertPath g))) w1).
Proof.
  intros H. apply ensureCAExists_then_loads in H.
  apply loadCA_Ok in H as (_ & f & Hf & Hr & [= ->]).
  assert (Fs.readFile (caCertPath g) w1 = Ok (content f) w1) as Hread
    by (apply readFile_Ok; eauto).
  split; [done|]. split; [done|]. split.
  - intros info w2 H. unfold Generator.getCAInfo in H.
    apply bind_Ok in H as (c & w3 & Hr' & H).
    rewrite Hread in Hr'. injection Hr' as <- <-.
    apply bind_Ok in H as (dates & w3 & Hx & H).
    apply exec_Ok, run_X509Dates in Hx as (-> & _).
    unfold ret in H. by injection H as <- <-.
  - intros e w2 H. unfold Generator.getCAInfo in H.
    apply bind_Err in H as [H|(c & w3 & Hr' & H)]; [by rewrite Hread in H|].
    rewrite Hread in Hr'. injection Hr' as <- <-.
    apply bind_Err in H as [H|(dates & w3 & _ & H)]; [|done].
    by apply exec_Err in H.
Qed.

End PassphraseClaims.

(** ** The dates of the authority: [getCAInfo] *)

Section DatesFacts.
Import Text.
Import Regex.

Lemma starts_with_app key s : starts_with key (key +:+ s) = true.
Proof.
  induction key as [|c key IH]; [done|]. rewrite app_cons. simpl.
  unfold is_char. by rewrite Ascii.eqb_refl.
Qed.

Lemma skip_app key s : skip (String.length key) (key +:+ s) = s.
Proof. induction key as [|c key IH]; [by destruct s|]. done. Qed.

Lemma take_while_line v rest :
  one_line v = true -> take_while is_dot_char (v +:+ String LF rest) = v.
Proof.
  induction v as [|c v IH].
  - intros _. rewrite app_empty_l. done.
  - unfold one_line. cbn [all_chars]. intros [Hc Hv]%andb_true_iff.
    rewrite app_cons. cbn [take_while]. rewrite Hc. f_equal. by apply IH.
Qed.

(** The pattern matches where the key stands, and captures the rest of
    the line. *)
Lemma capture_after_here key v rest :
  is_empty key = false -> one_line v = true -> is_empty v = false ->
  capture_after key (key +:+ v +:+ String LF rest) = Some v.
Proof.
  intros Hk Hv Hne. destruct key as [|c key]; [done|].
  rewrite app_cons. cbn [capture_after]. rewrite <- app_cons.
  by rewrite starts_with_app, skip_app, take_while_line, Hne.
Qed.

(** A key with an equals sign does not match inside text without one. *)
Lemma starts_with_blocked key a rest :
  all_chars (fun c => negb (is_char LF c)) key = true ->
  no_equals key = false -> no_equals a = true ->
  starts_with key (a +:+ String LF rest) = false.
Proof.
  revert key. induction a as [|c a IH]; intros key Hlf Hk Ha.
  - rewrite app_empty_l. destruct key as [|kc key]; [done|].
    cbn [all_chars starts_with] in *.
    apply andb_true_iff in Hlf as [Hlf _]. apply negb_true_iff in Hlf.
    unfold is_char in *. by rewrite Ascii.eqb_sym, Hlf.
  - rewrite app_cons. destruct key as [|kc key]; [done|].
    unfold no_equals in *. cbn [all_chars starts_with] in *.
    apply andb_true_iff in Hlf as [_ Hlf].
    apply andb_true_iff in Ha as [Hc Ha].
    destruct (is_char kc c) eqn:Hkc; [|done]. cbn [andb].
    apply Ascii.eqb_eq in Hkc as ->. rewrite Hc in Hk. by apply IH.
Qed.

Lemma capture_after_skip key a rest :
  all_chars (fun c => negb (is_char LF c)) key = true ->
  no_equals key = false -> no_equals a = true ->
  capture_after key (a +:+ String LF rest) = capture_after key rest.
Proof.
  intros Hlf Hk. induction a as [|c a IH]; intros Ha.
  - pose proof (starts_with_blocked key EmptyString rest Hlf Hk eq_refl) as H.
    rewrite app_empty_l in *. cbn [capture_after]. by rewrite H.
  - rewrite app_cons. cbn [capture_after]. rewrite <- app_cons.
    rewrite starts_with_blocked by done. cbn [andb].
    unfold no_equals in Ha. cbn [all_chars] in Ha.
    apply andb_true_iff in Ha as [_ Ha]. by apply IH.
Qed.

Lemma starts_with_no_equals key s :
  no_equals key = false -> no_equals s = true -> starts_with key s = false.
Proof.
  revert key. induction s as [|c s IH]; intros key Hk Hs.
  - by destruct key.
  - destruct key as [|kc key]; [done|]. unfold no_equals in *.
    cbn [all_chars starts_with] in *.
    apply andb_true_iff in Hs as [Hc Hs].
    destruct (is_char kc c) eqn:Hkc; [|done]. cbn [andb].
    apply Ascii.eqb_eq in Hkc as ->. rewrite Hc in Hk. by apply IH.
Qed.

(** Without an equals sign in the text there is no match. *)
Lemma capture_after_none key s :
  no_equals key = false -> no_equals s = true -> capture_after key s = None.
Proof.
  intros Hk. induction s as [|c s IH]; intros Hs; [done|].
  cbn [capture_after]. rewrite starts_with_no_equals by done. cbn [andb].
  unfold no_equals in Hs. cbn [all_chars] in Hs.
  apply andb_true_iff in Hs as [_ Hs]. by apply IH.
Qed.

Lemma capture_notAfter_skip s :
  capture_after "notAfter=" ("notBefore=" +:+ s)
  = capture_after "notAfter=" s.
Proof. reflexivity. Qed.

Lemma capture_dates a b rest :
  one_line a = true -> is_empty a = false -> no_equals a = true ->
  one_line b = true -> is_empty b = false ->
  let txt := "notBefore=" +:+ a +:+
             String LF ("notAfter=" +:+ b +:+ String LF rest) in
  capture_after "notBefore=" txt = Some a /\
  capture_after "notAfter=" txt = Some b.
Proof.
  intros Ha1 Ha2 Ha3 Hb1 Hb2 txt. unfold txt. split.
  - by apply capture_after_here.
  - rewrite capture_notAfter_skip, capture_after_skip by done.
    by apply capture_after_here.
Qed.

End DatesFacts.

Section DatesClaims.
Import Text.
Variable E : Env.
Variable g : CertificateGenerator.

Lemma getCAInfo_run w f txt :
  openssl_installed E = true ->
  files w !! caCertPath g = Some f -> readable f = true ->
  ossl_x509_dates E (content f) = Some txt ->
  Generator.getCAInfo E g w
  = Ok (mkCAInfo (sha256_hex E (content f))
          (Generator.new_Date E (Regex.capture_after "notBefore=" txt))
          (Generator.new_Date E (Regex.capture_after "notAfter=" txt)))
       (add_event (EvExec (X509Dates (caCertPath g))) w).
Proof.
  intros Hi Hf Hr Hd. unfold Generator.getCAInfo, bind.
  assert (Fs.readFile (caCertPath g) w = Ok (content f) w) as ->
    by (apply readFile_Ok; eauto).
  unfold Openssl.exec, Openssl.run. rewrite Hi. cbn [negb].
  unfold Openssl.input. cbn [files add_event]. rewrite Hf. simpl.
  rewrite Hr. simpl. rewrite Hd. done.
Qed.

(** X12: with a readable CA certificate and [openssl] at hand, [getCAInfo]
    returns whatever the command prints.  From the two lines
    [notBefore=a] and [notAfter=b] it takes the dates [new Date(a)] and
    [new Date(b)]; from text without an equals sign it takes two invalid
    dates, and still returns. *)
Theorem getCAInfo_dates w f txt :
  openssl_installed E = true ->
  files w !! caCertPath g = Some f -> readable f = true ->
  ossl_x509_dates E (content f) = Some txt ->
  (forall a b rest,
     txt = "notBefore=" +:+ a +:+
           String LF ("notAfter=" +:+ b +:+ String LF rest) ->
     one_line a = true -> is_empty a = false -> no_equals a = true ->
     one_line b = true -> is_empty b = false ->
     Generator.getCAInfo E g w
     = Ok (mkCAInfo (sha256_hex E (content f)) (date_parse E a)
             (date_parse E b))
          (add_event (EvExec (X509Dates (caCertPath g))) w)) /\
  (no_equals txt = true ->
   Generator.getCAInfo E g w
   = Ok (mkCAInfo (sha256_hex E (content f)) None None)
        (add_event (EvExec (X509Dates (caCertPath g))) w)).
Proof.
  intros Hi Hf Hr Hd. rewrite (getCAInfo_run w f txt) by done. split.
  - intros a b rest -> Ha1 Ha2 Ha3 Hb1 Hb2.
    destruct (capture_dates a b rest Ha1 Ha2 Ha3 Hb1 Hb2) as [-> ->]. done.
  - intros Hno. by rewrite !capture_after_none.
Qed.

End DatesClaims.

(** ** When the calls succeed *)

Section Forward.
Variable E : Env.
Hypothesis installed : openssl_installed E = true.










End Forward.

Section SuccessFacts.
Import Text.
Variable E : Env.






End SuccessFacts.

Section AuthoritySuccess.
Import Text.
Variable E : Env.
Variable baseDir : string.

Local Abbreviation g := (Generator.new baseDir).


End AuthoritySuccess.


Section IssuanceSuccess.
Import Text.
Variable E : Env.
Variable baseDir : string.
Variable assetTag hubId : string.
Variable equipmentId : Z.

Local Abbreviation g := (Generator.new baseDir).
Local Abbreviation keyP := (Generator.privateKeyPath_of g assetTag).
Local Abbreviation certP := (Generator.certPath_of g assetTag).
Local Abbreviation csrP := (Generator.csrPath_of g assetTag).
Local Abbreviation cfgP := (Generator.configPath_of g assetTag).
Local Abbreviation srlP := (Openssl.srl_path E (caCertPath g)).



End IssuanceSuccess.

(** ** Registration: the generator and the registrar together *)

Section ReadBack.
Import Text.
Variable E : Env.
Variable g : CertificateGenerator.
Variable assetTag hubId : string.
Variable equipment : Z.

Lemma issueDeviceCertificate_reads_back w info w' :
  Generator.issueDeviceCertificate E g assetTag hubId equipment w
    = Ok info w' ->
  exists c,
    Fs.readFile (Generator.certPath_of g assetTag) w' = Ok c w' /\
    info = mkCertificateInfo (deviceId info) equipment (sha256_hex E c)
             (Generator.certPath_of g assetTag)
             (Generator.privateKeyPath_of g assetTag).
Proof.
  intros H. unfold Generator.issueDeviceCertificate in H.
  apply bind_Ok in H as (d & w1 & _ & H).
  apply bind_Ok in H as (u & w2 & _ & H).
  apply bind_Ok in H as (o1 & w3 & _ & H).
  apply bind_Ok in H as (o2 & w4 & _ & H).
  apply bind_Ok in H as (pw & w5 & _ & H).
  apply bind_Ok in H as (o3 & w6 & _ & H).
  apply bind_Ok in H as (c & w7 & H6 & H).
  pose proof H6 as Hw. apply readFile_Ok in Hw as [-> _].
  unfold ret in H. injection H as <- <-. by exists c.
Qed.

(** The certificate that a call has issued can be read back from the path
    it returns, and the fingerprint it returns is the SHA-256 of what is
    read. *)
Lemma generateDeviceCertificate_reads_back w info w' :
  Generator.generateDeviceCertificate E g assetTag hubId equipment w
    = Ok info w' ->
  exists c,
    Fs.readFile (certificatePath info) w' = Ok c w' /\
    sha256_hex E c = fingerprint info /\ equipmentId info = equipment /\
    certificatePath info = Generator.certPath_of g assetTag /\
    privateKeyPath info = Generator.privateKeyPath_of g assetTag.
Proof.
  intros H. apply generateDeviceCertificate_split in H as (wmid & Hi & Hc).
  destruct (cleanupTemporaryFiles_Ok g assetTag wmid)
    as (w3 & Hc3 & Hf & Hd & _).
  rewrite Hc in Hc3. injection Hc3 as <-.
  apply issueDeviceCertificate_reads_back in Hi as (c & Hr & ->).
  exists c. cbn [certificatePath fingerprint equipmentId privateKeyPath].
  split; [|done].
  apply readFile_Ok in Hr as (_ & f & Hfile & Hrd & <-).
  apply readFile_Ok. split; [done|]. exists f. split; [|done].
  rewrite Hf. rewrite !lookup_delete_ne; [done|ne_by_last..].
Qed.

End ReadBack.

Section RegistrationClaims.
Import Text.
Variable E : Env.
Variable S : Service.
Variable g : CertificateGenerator.

(** X15: registering what has just been issued.  After
    [generateDeviceCertificate] has returned, [preRegisterDevice] finds the
    certificate file: it does not fail before the first request.  The row
    it inserts carries the certificate that is on disk, whose SHA-256 is
    the fingerprint of the row, and the equipment number the certificate
    was issued for.  When the insert is refused nothing else is sent; when
    the update of the equipment is refused the device row has been sent
    already, and is not taken back. *)
Theorem preRegisterDevice_after_issuance
    assetTag hubId equipment w info w' options db :
  Generator.generateDeviceCertificate E g assetTag hubId equipment w
    = Ok info w' ->
  exists cert,
    Fs.readFile (Generator.certPath_of g assetTag) w' = Ok cert w' /\
    sha256_hex E cert = fingerprint info /\
    let row := {| dev_device_id := deviceId info;
                  dev_equipment_id := equipment;
                  dev_certificate := cert;
                  dev_fingerprint := fingerprint info;
                  dev_serial_number := opt_serial options;
                  dev_status := "ready_to_deploy" |} in
    let update := UpdateEquipment equipment (deviceId info) (fingerprint info)
    in
    let r := DeviceRegistrar.preRegisterDevice S options info w' db in
    (forall e,
       device_insert_error S db row = Some e ->
       r = (InsertDevice row :: db,
            Failed (JsError ("Failed to register device: " +:+ message e)))) /\
    (device_insert_error S db row = None ->
     (forall e,
        equipment_update_error S (InsertDevice row :: db) equipment
          (deviceId info) (fingerprint info) = Some e ->
        r = (update :: InsertDevice row :: db,
             Failed (JsError ("Failed to update equipment: " +:+ message e))))
     /\
     (equipment_update_error S (InsertDevice row :: db) equipment
        (deviceId info) (fingerprint info) = None ->
      r = (update :: InsertDevice row :: db, Resolved tt))).
Proof.
  intros H.
  apply generateDeviceCertificate_reads_back in H
    as (c & Hr & Hfp & Heq & Hcp & _).
  exists c. rewrite <- Hcp. split; [done|]. split; [done|].
  intros row update r. subst r. unfold DeviceRegistrar.preRegisterDevice.
  rewrite Hr, Heq. fold row.
  split.
  - intros e He. by rewrite He.
  - intros Hnone. rewrite Hnone. fold update. split.
    + intros e He. by rewrite He.
    + intros He. by rewrite He.
Qed.

End RegistrationClaims.

(** ** The command line tool *)

Section ProcFacts.

Lemma pbind_inr {A B} (m : Proc A) (k : A -> Proc B) w db b w' db' :
  pbind m k w db = (inr b, w', db') <->
  exists a w1 db1, m w db = (inr a, w1, db1) /\ k a w1 db1 = (inr b, w', db').
Proof.
  unfold pbind. destruct (m w db) as [[[e|a] w1] db1]; split.
  - done.
  - by intros (? & ? & ? & ? & ?).
  - eauto.
  - by intros (? & ? & ? & [= <- <- <-] & ?).
Qed.

Lemma local_inr {A} (m : M A) w db a w' db' :
  local m w db = (inr a, w', db') <-> m w = Ok a w' /\ db' = db.
Proof.
  unfold local. destruct (m w) as [x w1|e w1]; split.
  - by intros [= <- <- <-].
  - by intros [[= <- <-] ->].
  - done.
  - by intros [? _].
Qed.

Lemma remote_inr {A} (f : Db -> Db * Settled A) w db a w' db' :
  remote f w db = (inr a, w', db') <-> f db = (db', Resolved a) /\ w' = w.
Proof.
  unfold remote. destruct (f db) as [db1 [x|e]]; split.
  - by intros [= <- <- <-].
  - by intros [[= <- <-] ->].
  - done.
  - by intros [? _].
Qed.

(** A relation between the datastore before and after that every step
    keeps is kept by the steps in a row. *)
Lemma pbind_db {A B} (R : Db -> Db -> Prop) (m : Proc A) (k : A -> Proc B) :
  (forall db, R db db) ->
  (forall db1 db2 db3, R db1 db2 -> R db2 db3 -> R db1 db3) ->
  (forall w db, R db (snd (m w db))) ->
  (forall a w db, R db (snd (k a w db))) ->
  forall w db, R db (snd (pbind m k w db)).
Proof.
  intros Hrefl Htrans Hm Hk w db. unfold pbind. specialize (Hm w db).
  destruct (m w db) as [[[e|a] w1] db1]; [done|].
  eapply Htrans; [exact Hm|apply Hk].
Qed.

Lemma local_db {A} (R : Db -> Db -> Prop) (m : M A) :
  (forall db, R db db) -> forall w db, R db (snd (local m w db)).
Proof. intros Hrefl w db. unfold local. by destruct (m w). Qed.

Lemma remote_db {A} (R : Db -> Db -> Prop) (f : Db -> Db * Settled A) :
  (forall db, R db (fst (f db))) -> forall w db, R db (snd (remote f w db)).
Proof.
  intros Hf w db. unfold remote. specialize (Hf db).
  by destruct (f db) as [db1 [x|e]].
Qed.

Lemma pbind_fails_only {A B} (m : Proc A) (k : A -> Proc B) :
  fails_only m -> (forall a, fails_only (k a)) -> fails_only (pbind m k).
Proof.
  intros Hm Hk w db e w' db'. unfold pbind.
  destruct (m w db) as [[[e1|a] w1] db1] eqn:H.
  - intros [= <- <- <-]. by eapply Hm.
  - apply Hk.
Qed.

Lemma local_fails_only {A} (m : M A) : fails_only (local m).
Proof.
  intros w db e w' db'. unfold local.
  destruct (m w); [done|]. intros [= <- <- <-]. eauto.
Qed.

Lemma remote_fails_only {A} (f : Db -> Db * Settled A) : fails_only (remote f).
Proof.
  intros w db e w' db'. unfold remote.
  destruct (f db) as [db1 [x|err]]; [done|]. intros [= <- <- <-]. eauto.
Qed.

Lemma yield_fails_only {A} (a : A) : fails_only (yield a).
Proof. by intros w db e w' db'. Qed.

End ProcFacts.

Section UploadFacts.
Variable S : Service.
Variable iso_string : Z -> string.

Lemma same_uploads_refl db : same_uploads db db.
Proof. done. Qed.

Lemma same_uploads_trans db1 db2 db3 :
  same_uploads db1 db2 -> same_uploads db2 db3 -> same_uploads db1 db3.
Proof. unfold same_uploads. congruence. Qed.

Lemma validateConnection_uploads db :
  same_uploads db (fst (DeviceRegistrar.validateConnection S db)).
Proof.
  unfold DeviceRegistrar.validateConnection.
  by destruct (hub_ids_error S db).
Qed.

Lemma fetchHubs_uploads db :
  same_uploads db (fst (DeviceRegistrar.fetchHubs S db)).
Proof.
  unfold DeviceRegistrar.fetchHubs.
  by destruct (hubs_answer S db) as [data [e|]].
Qed.

Lemma ensureEquipmentExists_uploads options deviceId db :
  same_uploads db
    (fst (DeviceRegistrar.ensureEquipmentExists S options deviceId db)).
Proof.
  unfold DeviceRegistrar.ensureEquipmentExists.
  destruct (equipment_found S db _ _); [done|].
  by destruct (equipment_created S _ _) as [[id|] [e|]].
Qed.

Lemma preRegisterDevice_uploads options info w db :
  same_uploads db
    (fst (DeviceRegistrar.preRegisterDevice S options info w db)).
Proof.
  unfold DeviceRegistrar.preRegisterDevice.
  destruct (Fs.readFile _ w); [|done].
  destruct (device_insert_error S db _); [done|].
  by destruct (equipment_update_error S _ _ _ _).
Qed.

(** An upload sends one row at most, made of its arguments. *)
Lemma uploadCAToDatabase_uploads c fp nb na db :
  let db' := fst (DeviceRegistrar.uploadCAToDatabase S iso_string c fp nb na db)
  in
  same_uploads db db' \/
  exists from_ until,
    ca_uploads db'
    = {| name := "Poem Booth Root CA"; certificate := c;
         ca_row_fingerprint := fp; valid_from := from_;
         valid_until := until; is_active := true |} :: ca_uploads db.
Proof.
  unfold DeviceRegistrar.uploadCAToDatabase, Registrar.uploadCAToDatabase,
    Registrar.toISOString, DeviceRegistrar.insert_trusted_device_cas.
  destruct nb as [nb|], na as [na|]; cbn [fmap option_fmap option_map];
    try by left.
  right. exists (iso_string nb), (iso_string na).
  destruct (ca_insert_error S db _) as [e|]; [|done].
  by destruct (negb _).
Qed.

End UploadFacts.

Section CliClaims.
Import Text.
Variable E : Env.
Variable S : Service.
Variable iso_string : Z -> string.
Variable cwd : string.

Local Abbreviation g := (Generator.new cwd).
Local Abbreviation main := (Cli.main E S iso_string cwd).

Lemma provision_fails_only answers :
  fails_only (Cli.provision E S iso_string cwd answers).
Proof.
  unfold Cli.provision.
  apply pbind_fails_only; [apply local_fails_only|]. intros _.
  apply pbind_fails_only; [apply local_fails_only|]. intros ca.
  apply pbind_fails_only.
  { destruct (snd ca); [|apply yield_fails_only].
    apply pbind_fails_only; [apply local_fails_only|]. intros info.
    apply remote_fails_only. }
  intros _.
  apply pbind_fails_only; [apply remote_fails_only|]. intros equipment.
  apply pbind_fails_only; [apply local_fails_only|]. intros info.
  apply pbind_fails_only; [|intros _; apply yield_fails_only].
  intros w db e w' db'. apply remote_fails_only.
Qed.

(** X16: nothing is written before the confirmation.  A run that is not
    confirmed, or that finds no hub, leaves the file system as it is and
    has sent the two queries on [hubs] and nothing else; it ends with exit
    code 0 only when it was cancelled. *)
Theorem main_before_confirmation answers w db :
  (ans_confirm answers = false ->
   exists e db',
     main answers w db = (inl e, w, db') /\
     (db' = SelectHubIds :: db \/ db' = SelectHubs :: SelectHubIds :: db)) /\
  (forall e w' db',
     main answers w db = (inl e, w', db') ->
     e = NoHubs \/ e = Cancelled ->
     w' = w /\ db' = SelectHubs :: SelectHubIds :: db /\
     (exit_code e = 0 <-> ans_confirm answers = false /\ e = Cancelled)).
Proof.
  unfold Cli.main, pbind, remote, DeviceRegistrar.validateConnection,
    DeviceRegistrar.fetchHubs.
  split.
  - intros Hc. rewrite Hc. cbn [negb].
    destruct (hub_ids_error S db) as [e1|]; [by eauto|].
    destruct (hubs_answer S (SelectHubIds :: db)) as [data [e2|]];
      [by eauto|].
    destruct (length (default [] data) =? 0)%nat; unfold exit; by eauto.
  - intros e w' db'.
    destruct (hub_ids_error S db) as [e1|].
    { intros [= <- <- <-]. by intros [|]. }
    destruct (hubs_answer S (SelectHubIds :: db)) as [data [e2|]].
    { intros [= <- <- <-]. by intros [|]. }
    destruct (length (default [] data) =? 0)%nat.
    { unfold exit. intros [= <- <- <-] _. split; [done|]. split; [done|].
      split; [done|]. by intros [_ ?]. }
    destruct (ans_confirm answers) eqn:Hc; cbn [negb].
    + intros H He. apply provision_fails_only in H as [err ->].
      by destruct He.
    + unfold exit. intros [= <- <- <-] _. done.
Qed.

(** After the upload step nothing more is sent to [trusted_device_cas]. *)
Lemma registration_uploads answers w db :
  same_uploads db
    (snd ((let* equipment :=
             remote (DeviceRegistrar.ensureEquipmentExists S
                       (Cli.options_of answers) EmptyString) in
           let* certInfo :=
             local (Generator.generateDeviceCertificate E g
                      (ans_assetTag answers) (ans_hubId answers) equipment) in
           run* (fun w => remote (DeviceRegistrar.preRegisterDevice S
                                    (Cli.options_of answers) certInfo w) w) in
           yield certInfo)%P w db)).
Proof.
  revert w db.
  apply pbind_db;
    [apply same_uploads_refl|apply same_uploads_trans| |intros equipment].
  { apply remote_db. apply ensureEquipmentExists_uploads. }
  apply pbind_db;
    [apply same_uploads_refl|apply same_uploads_trans| |intros info].
  { apply local_db. apply same_uploads_refl. }
  apply pbind_db;
    [apply same_uploads_refl|apply same_uploads_trans| |intros _].
  { intros w db. apply remote_db. intros db0. apply preRegisterDevice_uploads. }
  intros w db. apply same_uploads_refl.
Qed.

(** X17: the authority is uploaded by the run that generates it, and by no
    other.  A run of [main] sends at most one row to [trusted_device_cas];
    it sends none when the CA certificate can be read at the start, so an
    authority whose upload has failed is not uploaded by a later run.  The
    row that is sent is active, is named "Poem Booth Root CA", and its
    fingerprint is the SHA-256 of its certificate. *)
Theorem main_uploads_new_ca_only answers w db :
  let db' := snd (main answers w db) in
  (is_ok (Fs.readFile (caCertPath g) w) = true ->
   ca_uploads db' = ca_uploads db) /\
  (ca_uploads db' = ca_uploads db \/
   exists row,
     ca_uploads db' = row :: ca_uploads db /\
     name row = "Poem Booth Root CA" /\ is_active row = true /\
     ca_row_fingerprint row = sha256_hex E (certificate row) /\
     is_ok (Fs.readFile (caCertPath g) w) = false).
Proof.
  intros db'.
  set (Q := fun d : Db =>
    ca_uploads d = ca_uploads db \/
    exists row,
      ca_uploads d = row :: ca_uploads db /\
      name row = "Poem Booth Root CA" /\ is_active row = true /\
      ca_row_fingerprint row = sha256_hex E (certificate row) /\
      is_ok (Fs.readFile (caCertPath g) w) = false).
  assert (Q db') as Hmain.
  2:{ split; [|exact Hmain]. intros Hread.
      destruct Hmain as [?|(row & _ & _ & _ & _ & Hno)]; [done|].
      by rewrite Hread in Hno. }
  assert (forall d, same_uploads db d -> Q d) as Hsame by (intros d ?; by left).
  subst db'. unfold Cli.main, pbind at 1, remote at 1.
  pose proof (validateConnection_uploads S db) as H1.
  destruct (DeviceRegistrar.validateConnection S db) as [db1 [[]|e1]];
    cbn [fst] in H1; [|by apply Hsame].
  unfold pbind at 1, remote at 1.
  pose proof (fetchHubs_uploads S db1) as H2.
  destruct (DeviceRegistrar.fetchHubs S db1) as [db2 [hubs|e2]];
    cbn [fst] in H2;
    assert (same_uploads db db2) as H12
      by (unfold same_uploads in *; congruence);
    [|by apply Hsame].
  clear H1 H2.
  destruct (length hubs =? 0)%nat; [by apply Hsame|].
  destruct (negb (ans_confirm answers)); [by apply Hsame|].
  unfold Cli.provision, pbind at 1, local at 1.
  destruct (Generator.validatePrerequisites E g w) as [u w1|e w1] eqn:Hv;
    [|by apply Hsame].
  assert (files w1 = files w) as Hfiles.
  { by apply validatePrerequisites_Ok in Hv as (_ & _ & _ & ? & _). }
  unfold pbind at 1, local at 1.
  destruct (Generator.ensureCAExists E g w1) as [[c isNew] w2|e w2] eqn:Hca;
    [|by apply Hsame].
  cbn [fst snd]. unfold pbind at 1.
  destruct isNew.
  - assert (is_ok (Fs.readFile (caCertPath g) w) = false) as Hno.
    { rewrite readFile_is_ok, <- Hfiles, <- readFile_is_ok.
      destruct (is_ok (Fs.readFile (caCertPath g) w1)) eqn:Hr; [|done].
      destruct (Generator.loadCA g w1) as [x w0|e w0] eqn:Hl.
      - rewrite (ensureCAExists_loaded E g _ _ _ Hl) in Hca.
        apply loadCA_Ok in Hl as (_ & f & _ & _ & ->). discriminate Hca.
      - assert (is_ok (Generator.loadCA g w1) = false) as Hl'
          by by rewrite Hl.
        rewrite loadCA_is_ok, Hr, andb_true_r in Hl'.
        rewrite readFile_is_ok in Hr. unfold Fs.access in Hl'.
        destruct (files w1 !! caCertPath g) as [f|]; [|done].
        by rewrite bool_decide_eq_true_2 in Hl'. }
    unfold pbind at 1, local at 1.
    destruct (Generator.getCAInfo E g w2) as [info w3|e w3] eqn:Hinfo;
      [|by apply Hsame].
    assert (ca_fingerprint info = sha256_hex E c) as Hfp.
    { apply ensureCAExists_then_loads in Hca.
      apply loadCA_Ok in Hca as (_ & f & Hf & Hr & [= ->]).
      unfold Generator.getCAInfo in Hinfo.
      apply bind_Ok in Hinfo as (c' & w4 & Hr' & Hinfo).
      apply readFile_Ok in Hr' as (-> & f' & Hf' & _ & <-).
      rewrite Hf in Hf'. injection Hf' as <-.
      apply bind_Ok in Hinfo as (dates & w5 & _ & Hinfo).
      unfold ret in Hinfo. by injection Hinfo as <- _. }
    unfold remote at 1.
    pose proof (uploadCAToDatabase_uploads S iso_string c (ca_fingerprint info)
                  (notBefore info) (notAfter info) db2) as Hup.
    cbn zeta in Hup.
    destruct (DeviceRegistrar.uploadCAToDatabase S iso_string c
                (ca_fingerprint info) (notBefore info) (notAfter info) db2)
      as [db3 [[]|e3]]; cbn [fst] in Hup.
    + pose proof (registration_uploads answers w3 db3) as Hrest.
      unfold same_uploads in *.
      destruct Hup as [Hup|(from_ & until & Hup)].
      * left. congruence.
      * right. eexists. split; [rewrite Hrest, Hup, H12; reflexivity|].
        by rewrite Hfp.
    + unfold same_uploads in *. cbn [snd].
      destruct Hup as [Hup|(from_ & until & Hup)].
      * left. congruence.
      * right. eexists. split; [rewrite Hup, H12; reflexivity|].
        by rewrite Hfp.
  - unfold yield at 1.
    pose proof (registration_uploads answers w2 db2) as Hrest.
    apply Hsame. unfold same_uploads in *. congruence.
Qed.

(** X18: a run of [main] that completes was confirmed, and has registered
    what it has issued.  The certificate can be read from the path that is
    returned and its SHA-256 is the fingerprint that is returned; the key
    and the certificate are the files of the asset tag.  The last two
    requests are the insert of the device row, which carries this
    certificate, this fingerprint and the returned device and equipment
    numbers, and the update of the equipment row with the same device
    number and fingerprint; neither was refused. *)
Theorem main_registers_what_it_issues answers w db info w' db' :
  main answers w db = (inr info, w', db') ->
  ans_confirm answers = true /\
  certificatePath info = Generator.certPath_of g (ans_assetTag answers) /\
  privateKeyPath info = Generator.privateKeyPath_of g (ans_assetTag answers) /\
  exists cert db0,
    Fs.readFile (certificatePath info) w' = Ok cert w' /\
    sha256_hex E cert = fingerprint info /\
    let row := {| dev_device_id := deviceId info;
                  dev_equipment_id := equipmentId info;
                  dev_certificate := cert;
                  dev_fingerprint := fingerprint info;
                  dev_serial_number := Cli.serial_option (ans_serial answers);
                  dev_status := "ready_to_deploy" |} in
    db' = UpdateEquipment (equipmentId info) (deviceId info) (fingerprint info)
          :: InsertDevice row :: db0 /\
    device_insert_error S db0 row = None /\
    equipment_update_error S (InsertDevice row :: db0) (equipmentId info)
      (deviceId info) (fingerprint info) = None /\
    exists db1,
      DeviceRegistrar.ensureEquipmentExists S (Cli.options_of answers)
        EmptyString db1 = (db0, Resolved (equipmentId info)).
Proof.
  intros H. unfold Cli.main in H.
  apply pbind_inr in H as (u0 & wa & dba & _ & H).
  apply pbind_inr in H as (hubs & wb & dbb & _ & H).
  destruct (length hubs =? 0)%nat; [done|].
  destruct (ans_confirm answers); [|done]. cbn [negb] in H.
  split; [done|]. unfold Cli.provision in H.
  apply pbind_inr in H as (u1 & w1 & db1 & _ & H).
  apply pbind_inr in H as (ca & w2 & db2 & _ & H).
  apply pbind_inr in H as (u2 & w3 & db3 & _ & H).
  apply pbind_inr in H as (equipment & w4 & db4 & He & H).
  apply remote_inr in He as [He ->].
  apply pbind_inr in H as (certInfo & w5 & db5 & Hg & H).
  apply local_inr in Hg as [Hg ->].
  apply pbind_inr in H as (u3 & w6 & db6 & Hp & H).
  unfold yield in H. injection H as <- <- <-.
  apply remote_inr in Hp as [Hp ->].
  apply generateDeviceCertificate_reads_back in Hg
    as (c & Hr & Hfp & Heq & Hcp & Hkp).
  split; [done|]. split; [done|]. exists c, db4.
  split; [done|]. split; [done|]. intros row.
  unfold DeviceRegistrar.preRegisterDevice in Hp. rewrite Hr in Hp.
  cbn [Cli.options_of opt_serial] in Hp. fold row in Hp.
  destruct (device_insert_error S db4 row) as [e1|]; [done|].
  destruct (equipment_update_error S _ _ _ _) as [e2|] eqn:Hu; [done|].
  injection Hp as <-. rewrite <- Heq in He. eauto 10.
Qed.

End CliClaims.

(** * Examples on the sample machine *)

Lemma ensureCAExists_idempotent_witness :
  Generator.ensureCAExists Sample.env Sample.gen Sample.fresh_world
    = Ok (Sample.ca_cert, true) Sample.ca_world /\
  Generator.ensureCAExists Sample.env Sample.gen Sample.ca_world
    = Ok (Sample.ca_cert, false) Sample.ca_world.
Proof.
  assert (Generator.ensureCAExists Sample.env Sample.gen Sample.fresh_world
          = Ok (Sample.ca_cert, true) Sample.ca_world) as H
    by (vm_compute; reflexivity).
  split; [exact H|].
  exact (proj1 (ensureCAExists_idempotent Sample.env Sample.gen
                  Sample.fresh_world Sample.ca_cert true Sample.ca_world H)).
Defined.

Lemma ensureCAExists_read_failure_regenerates_witness :
  is_ok (Fs.readFile (caCertPath Sample.gen) Sample.locked_world) = false /\
  Generator.ensureCAExists Sample.env Sample.gen Sample.locked_world
    = Generator.generateCA Sample.env Sample.gen Sample.locked_world.
Proof.
  assert (is_ok (Fs.readFile (caCertPath Sample.gen) Sample.locked_world)
          = false) as H by (vm_compute; reflexivity).
  split; [exact H|].
  exact (proj1 (ensureCAExists_read_failure_regenerates Sample.env Sample.gen
                  Sample.locked_world (or_intror H))).
Defined.








(** On the sample machine the information is that of the sample CA. *)
Example getCAInfo_sample :
  value_of (mkCAInfo EmptyString None None)
    (Generator.getCAInfo Sample.env Sample.gen Sample.ca_world)
  = mkCAInfo ("sha256(" +:+ Sample.ca_cert +:+ ")")
      (Some 1735689600000) (Some 2050963200000).
Proof. vm_compute. reflexivity. Qed.

(** C4 fails on the code.  On a machine where the CA exists but its
    certificate cannot be read, [ensureCAExists] generates again: the call
    ends in the read error, and by then the CA key, the certificate and
    the passphrase have all been replaced. *)
Theorem ensureCAExists_regenerates_unreadable_ca :
  (exists f, files Sample.locked_world !! caCertPath Sample.gen = Some f /\
             content f = Sample.ca_cert /\ readable f = false) /\
  (exists w',
     Generator.ensureCAExists Sample.env Sample.gen Sample.locked_world
       = Err (FsError "EACCES" (caCertPath Sample.gen)) w' /\
     content <$> files Sample.locked_world !! caKeyPath Sample.gen
       = Some "RSA4096#32/aes256:000102030405060708090a0b0c0d0e0f101112131415161718191a1b1c1d1e1f" /\
     content <$> files w' !! caKeyPath Sample.gen
       = Some "RSA4096#66/aes256:22232425262728292a2b2c2d2e2f303132333435363738393a3b3c3d3e3f4041" /\
     content <$> files w' !! caCertPath Sample.gen
       = Some "CACERT{RSA4096#66/aes256:22232425262728292a2b2c2d2e2f303132333435363738393a3b3c3d3e3f4041}" /\
     content <$> files w' !! caPasswordPath Sample.gen
       = Some "22232425262728292a2b2c2d2e2f303132333435363738393a3b3c3d3e3f4041" /\
     content <$> files w' !! caCertPath Sample.gen
       <> content <$> files Sample.locked_world !! caCertPath Sample.gen).
Proof.
  split.
  - eexists. split; [vm_compute; reflexivity|]. split; vm_compute; reflexivity.
  - exists (world_of (Generator.ensureCAExists Sample.env Sample.gen
                        Sample.locked_world)).
    split; [vm_compute; reflexivity|].
    repeat split; try (vm_compute; reflexivity).
    vm_compute. discriminate.
Qed.

(** The command lines, as the shell receives them. *)
Example command_line_genrsa :
  Openssl.command_line (Genrsa "/srv/booth/device-certs/PB-005-key.pem" 2048)
  = "openssl genrsa -out /srv/booth/device-certs/PB-005-key.pem 2048".
Proof. reflexivity. Qed.

Example command_line_dates :
  Openssl.command_line (X509Dates (caCertPath Sample.gen))
  = "openssl x509 -in /srv/booth/ca/ca-cert.pem -noout -dates".
Proof. reflexivity. Qed.

(** [path.join] normalises: an asset tag may name a file outside the
    device directory. *)
Example join_normalises :
  Path.join "/srv/booth/device-certs" "../ca/ca-cert.pem"
  = "/srv/booth/ca/ca-cert.pem" /\
  Path.join "a/../.." "x//y/./z/" = "../x/y/z/" /\
  Path.join EmptyString EmptyString = ".".
Proof. repeat split; reflexivity. Qed.

(** ** Examples for the further facts *)




Lemma validatePrerequisites_creates_directories_witness :
  Generator.validatePrerequisites Sample.env (Generator.new "/srv/booth")
    Sample.empty_world = Ok tt Sample.fresh_world /\
  Path.join "/srv/booth" "ca" ∈ dirs Sample.fresh_world /\
  Path.join "/srv/booth" "device-certs" ∈ dirs Sample.fresh_world.
Proof.
  assert (Generator.validatePrerequisites Sample.env
            (Generator.new "/srv/booth") Sample.empty_world
          = Ok tt Sample.fresh_world) as H by (vm_compute; reflexivity).
  split; [exact H|].
  pose proof (validatePrerequisites_creates_directories Sample.env
                "/srv/booth" Sample.empty_world tt Sample.fresh_world H)
    as (_ & H1 & H2 & _).
  split; [exact H1|exact H2].
Defined.



Lemma ensureCAExists_isNew_witness :
  Generator.ensureCAExists Sample.env (Generator.new "/srv/booth")
    Sample.fresh_world = Ok (Sample.ca_cert, true) Sample.ca_world /\
  rng Sample.ca_world = (rng Sample.fresh_world + 34)%nat.
Proof.
  assert (Generator.ensureCAExists Sample.env (Generator.new "/srv/booth")
            Sample.fresh_world = Ok (Sample.ca_cert, true) Sample.ca_world)
    as H by (vm_compute; reflexivity).
  split; [exact H|].
  exact (proj1 (proj2 (proj2 (ensureCAExists_isNew Sample.env "/srv/booth"
                                Sample.fresh_world Sample.ca_cert true
                                Sample.ca_world H)) eq_refl)).
Defined.

Lemma ca_readers_agree_witness :
  Generator.ensureCAExists Sample.env (Generator.new "/srv/booth")
    Sample.fresh_world = Ok (Sample.ca_cert, true) Sample.ca_world /\
  Generator.readCACertificate (Generator.new "/srv/booth") Sample.ca_world
  = Ok Sample.ca_cert Sample.ca_world.
Proof.
  assert (Generator.ensureCAExists Sample.env (Generator.new "/srv/booth")
            Sample.fresh_world = Ok (Sample.ca_cert, true) Sample.ca_world)
    as H by (vm_compute; reflexivity).
  split; [exact H|].
  exact (proj1 (ca_readers_agree Sample.env "/srv/booth" Sample.fresh_world
                  Sample.ca_cert true Sample.ca_world H)).
Defined.

Lemma getCAInfo_dates_witness :
  openssl_installed Sample.env = true /\
  files Sample.ca_world !! caCertPath Sample.gen
  = Some (mkFile Sample.ca_cert true true) /\
  ossl_x509_dates Sample.env Sample.ca_cert = Some Sample.dates_text /\
  Generator.getCAInfo Sample.env Sample.gen Sample.ca_world
  = Ok (mkCAInfo (sha256_hex Sample.env Sample.ca_cert)
          (date_parse Sample.env "Jan  1 00:00:00 2025 GMT")
          (date_parse Sample.env "Dec 30 00:00:00 2034 GMT"))
       (add_event (EvExec (X509Dates (caCertPath Sample.gen)))
          Sample.ca_world).
Proof.
  assert (files Sample.ca_world !! caCertPath Sample.gen
          = Some (mkFile Sample.ca_cert true true)) as Hf
    by (vm_compute; reflexivity).
  split; [reflexivity|]. split; [exact Hf|]. split; [reflexivity|].
  exact (proj1 (getCAInfo_dates Sample.env Sample.gen Sample.ca_world
                  (mkFile Sample.ca_cert true true) Sample.dates_text
                  eq_refl Hf eq_refl eq_refl)
           "Jan  1 00:00:00 2025 GMT" "Dec 30 00:00:00 2034 GMT" EmptyString
           eq_refl eq_refl eq_refl eq_refl eq_refl eq_refl).
Defined.



Lemma preRegisterDevice_after_issuance_witness :
  Generator.generateDeviceCertificate Sample.env Sample.gen "PB-005" "hub-1" 42
    Sample.ca_world
  = Ok (value_of Sample.no_info Sample.pb005) (world_of Sample.pb005) /\
  exists cert,
    Fs.readFile (Generator.certPath_of Sample.gen "PB-005")
      (world_of Sample.pb005) = Ok cert (world_of Sample.pb005) /\
    sha256_hex Sample.env cert
    = fingerprint (value_of Sample.no_info Sample.pb005).
Proof.
  assert (Generator.generateDeviceCertificate Sample.env Sample.gen "PB-005"
            "hub-1" 42 Sample.ca_world
          = Ok (value_of Sample.no_info Sample.pb005) (world_of Sample.pb005))
    as H by (vm_compute; reflexivity).
  split; [exact H|].
  destruct (preRegisterDevice_after_issuance Sample.env Demo.service Sample.gen
              "PB-005" "hub-1" 42 Sample.ca_world
              (value_of Sample.no_info Sample.pb005) (world_of Sample.pb005)
              Demo.options [] H) as (cert & H1 & H2 & _).
  exists cert. split; [exact H1|exact H2].
Defined.

Lemma main_registers_what_it_issues_witness :
  Demo.run = (inr Demo.run_info, snd (fst Demo.run), snd Demo.run) /\
  ans_confirm Demo.answers = true /\
  certificatePath Demo.run_info
  = Generator.certPath_of (Generator.new "/srv/booth") "PB-005".
Proof.
  assert (Cli.main Sample.env Demo.service Demo.iso_string "/srv/booth"
            Demo.answers Sample.empty_world []
          = (inr Demo.run_info, snd (fst Demo.run), snd Demo.run)) as H
    by (vm_compute; reflexivity).
  split; [exact H|].
  pose proof (main_registers_what_it_issues Sample.env Demo.service
                Demo.iso_string "/srv/booth" Demo.answers Sample.empty_world []
                Demo.run_info (snd (fst Demo.run)) (snd Demo.run) H)
    as (H1 & H2 & _).
  split; [exact H1|exact H2].
Defined.
